(** * ClickUp image downloader: a shallow embedding of [clickup_get_images.py]

    The script walks a ClickUp workspace (spaces, lists, tasks, attachments),
    downloads every image attachment below [OUT_DIR] and keeps three JSON
    ledgers next to the images so that an interrupted run can be resumed.

    The embedding follows the source function by function.  Python code that
    reads or writes the disk, calls the network, sleeps, prints or raises is a
    computation in the monad [M]: it takes the state of the run, and gives a
    result (a value, a raised exception, or [Diverge] when the fuel of the
    pagination loop ran out), the new state and the events it emitted.

    Modelling boundaries, all on the side of the environment:
    - a destination is identified with its path relative to [OUT_DIR], the
      string [sname/lname/fname]; [mkdir] is implicit, and the three ledgers
      live outside this key space (names are plain file-name components);
    - the ledgers a state holds are text files: absent, not JSON, or JSON of
      the shape the script writes; the loaders are also given on a file
      that does not decode as text ([ledger_content]); [json.dump] followed
      by [json.load] is the identity;
    - [console.print] renders rich markup and rich is not part of the
      script: the processing loop is given for any answer [rich] of the
      library to a line, and [main], [process_task] and the like are the
      script on a console on which every line renders;
    - strings are sequences of Latin-1 code points;
    - [time.time()] reads a logical clock in milliseconds that only
      [time.sleep] advances;
    - the remote side is a deterministic table of responses; every list it
      answers carries the keys ["id"] and ["name"], every task its ["id"];
    - the console lines of [main] are events; the [rich] panels, spinners
      and progress bars around them are left out;
    - [iter_tasks] is a generator that [main] consumes at once with
      [list(...)]; the embedding returns the list. *)

From Stdlib Require Import ZArith List String Ascii Bool Lia.
From Stdlib.Strings Require Import Byte.
From stdpp Require Import base gmap sets list strings pretty.

Local Open Scope string_scope.
Local Open Scope list_scope.
Local Open Scope Z_scope.

(** ** Exceptions, events and the monad of the script *)

(** The exception classes the script can meet.  [RequestException] stands for
    the whole [requests.exceptions] hierarchy ([HTTPError], [ConnectionError],
    [Timeout], ...), which is what [download] catches. *)
Inductive exn : Type :=
  | RequestException (msg : string)
  | JSONDecodeError
  | KeyError (key : string)
  | TypeError (msg : string)
  | ValueError (msg : string)
  | FileNotFoundError (path : string)
  | UnicodeDecodeError (msg : string)
  | MarkupError (msg : string).

(** [str(e)] *)
Definition str_exn (e : exn) : string :=
  match e with
  | RequestException msg => msg
  | JSONDecodeError => "Expecting value"
  | KeyError key => "'" +:+ key +:+ "'"
  | TypeError msg => msg
  | ValueError msg => msg
  | FileNotFoundError path => "No such file or directory: '" +:+ path +:+ "'"
  | UnicodeDecodeError msg => msg
  | MarkupError msg => msg
  end.

Inductive request : Type :=
  | GetSpaces
  | GetLists (space_id : string)
  | GetFolders (space_id : string)
  | GetTaskPage (list_id : string) (page : nat)
  | GetTask (task_id : string).

Inductive message : Type :=
  | Header (previously_processed : nat)
  | FoundSpaces (n : nat)
  | FoundTasks (total remaining : nat)
  | Downloading (fname : string)
  | FailedToDownload (fname : string)
  | SkippingDuplicate (fname : string)
  | ErrorProcessingTask (task_id err : string)
  | Complete (total_imgs failed_downloads : nat).

Inductive event : Type :=
  | EApiGet (req : request)      (* requests.get in api_get *)
  | EHttpGet (url : string)      (* requests.get(stream=True) in download *)
  | ESleep                       (* time.sleep(RATE_DELAY) *)
  | EPrint (m : message).        (* console.print *)

Inductive res (A : Type) : Type :=
  | Ret (a : A)
  | Raise (e : exn)
  | Diverge.
Arguments Ret {A} a.
Arguments Raise {A} e.
Arguments Diverge {A}.

(** ** The state of a run: the output directory, the clock, main's counters *)

Record download_record : Type := mk_download_record
  { dr_url : string; dr_size : Z; dr_downloaded_at : Z }.

Record failed_record : Type := mk_failed_record
  { fr_url : string; fr_dest : string; fr_error : string; fr_failed_at : Z }.

Inductive ledger_file (A : Type) : Type :=
  | Absent
  | Corrupt
  | Holds (a : A).
Arguments Absent {A}.
Arguments Corrupt {A}.
Arguments Holds {A} a.

Record state : Type := mk_state
  { files : gmap string (list byte);
    metadata_file : ledger_file (gmap string download_record);
    failed_downloads_file : ledger_file (list failed_record);
    processed_tasks_file : ledger_file (list string);
    clock : Z;
    total_imgs : nat;
    failed_downloads : nat }.

Definition M (A : Type) : Type := state -> res A * state * list event.

Definition ret {A} (a : A) : M A := fun st => (Ret a, st, []).

Definition raise {A} (e : exn) : M A := fun st => (Raise e, st, []).

Definition bind {A B} (m : M A) (k : A -> M B) : M B :=
  fun st =>
    match m st with
    | (Ret a, st1, tr1) =>
        match k a st1 with
        | (r, st2, tr2) => (r, st2, tr1 ++ tr2)
        end
    | (Raise e, st1, tr1) => (Raise e, st1, tr1)
    | (Diverge, st1, tr1) => (Diverge, st1, tr1)
    end.

(** [try: m except <classes>: h]: the handler says which exceptions it
    catches by returning [Some]. *)
Definition try_except {A} (m : M A) (h : exn -> option (M A)) : M A :=
  fun st =>
    match m st with
    | (Raise e, st1, tr1) =>
        match h e with
        | Some k =>
            match k st1 with
            | (r, st2, tr2) => (r, st2, tr1 ++ tr2)
            end
        | None => (Raise e, st1, tr1)
        end
    | other => other
    end.

Definition get : M state := fun st => (Ret st, st, []).
Definition modify (f : state -> state) : M unit := fun st => (Ret tt, f st, []).
Definition emit (e : event) : M unit := fun st => (Ret tt, st, [e]).
Definition diverge {A} : M A := fun st => (Diverge, st, []).

Declare Scope prog_scope.
Delimit Scope prog_scope with prog.
Notation "'do' x <- m ; k" := (bind m (fun x => k))
  (at level 10, x name, m at level 100, k at level 200) : prog_scope.
Notation "'run' m ; k" := (bind m (fun _ => k))
  (at level 10, m at level 100, k at level 200) : prog_scope.
Local Open Scope prog_scope.

(** [for x in xs: body x] *)
Fixpoint for_each {A} (xs : list A) (body : A -> M unit) : M unit :=
  match xs with
  | [] => ret tt
  | x :: xs' => run body x; for_each xs' body
  end.

(** A [for] loop that updates local variables [acc]. *)
Fixpoint for_fold {A B} (xs : list A) (acc : B) (body : B -> A -> M B) : M B :=
  match xs with
  | [] => ret acc
  | x :: xs' => do acc' <- body acc x; for_fold xs' acc' body
  end.

(** Field updates of the state. *)
Definition with_files (f : gmap string (list byte)) (st : state) : state :=
  {| files := f; metadata_file := metadata_file st;
     failed_downloads_file := failed_downloads_file st;
     processed_tasks_file := processed_tasks_file st;
     clock := clock st; total_imgs := total_imgs st;
     failed_downloads := failed_downloads st |}.

Definition with_metadata_file (m : ledger_file (gmap string download_record))
  (st : state) : state :=
  {| files := files st; metadata_file := m;
     failed_downloads_file := failed_downloads_file st;
     processed_tasks_file := processed_tasks_file st;
     clock := clock st; total_imgs := total_imgs st;
     failed_downloads := failed_downloads st |}.

Definition with_failed_downloads_file (l : ledger_file (list failed_record))
  (st : state) : state :=
  {| files := files st; metadata_file := metadata_file st;
     failed_downloads_file := l;
     processed_tasks_file := processed_tasks_file st;
     clock := clock st; total_imgs := total_imgs st;
     failed_downloads := failed_downloads st |}.

Definition with_processed_tasks_file (l : ledger_file (list string))
  (st : state) : state :=
  {| files := files st; metadata_file := metadata_file st;
     failed_downloads_file := failed_downloads_file st;
     processed_tasks_file := l;
     clock := clock st; total_imgs := total_imgs st;
     failed_downloads := failed_downloads st |}.

Definition with_clock (t : Z) (st : state) : state :=
  {| files := files st; metadata_file := metadata_file st;
     failed_downloads_file := failed_downloads_file st;
     processed_tasks_file := processed_tasks_file st;
     clock := t; total_imgs := total_imgs st;
     failed_downloads := failed_downloads st |}.

Definition with_counters (imgs failed : nat) (st : state) : state :=
  {| files := files st; metadata_file := metadata_file st;
     failed_downloads_file := failed_downloads_file st;
     processed_tasks_file := processed_tasks_file st;
     clock := clock st; total_imgs := imgs; failed_downloads := failed |}.

(** ** Configuration *)

(** [RATE_DELAY = 0.6] seconds, in milliseconds. *)
Definition RATE_DELAY : Z := 600.

Definition METADATA_FILE : string := ".download_metadata.json".
Definition FAILED_DOWNLOADS_FILE : string := ".failed_downloads.json".
Definition PROCESSED_TASKS_FILE : string := ".processed_tasks.json".

(** [time.sleep(RATE_DELAY)] *)
Definition sleep : M unit :=
  run emit ESleep;
  modify (fun st => with_clock (clock st + RATE_DELAY) st).

(** [time.time()] *)
Definition time_time : M Z := do st <- get; ret (clock st).

(** ** Reading and writing the three ledgers *)

(** What a ledger file is on disk when it is opened with [open(name, 'r')]
    and read by [json.load]: no file, bytes that do not decode as text (the
    codec's message is [err]), text that is not JSON, or JSON of the shape
    the script writes. *)
Inductive ledger_content (A : Type) : Type :=
  | NoFile
  | Undecodable (err : string)
  | InvalidJson
  | Json (a : A).
Arguments NoFile {A}.
Arguments Undecodable {A} err.
Arguments InvalidJson {A}.
Arguments Json {A} a.

(** The ledgers a state holds are text files. *)
Definition on_disk {A} (f : ledger_file A) : ledger_content A :=
  match f with
  | Absent => NoFile
  | Corrupt => InvalidJson
  | Holds a => Json a
  end.

(** [LEDGER.exists()] *)
Definition content_exists {A} (f : ledger_content A) : bool :=
  match f with NoFile => false | _ => true end.

(** [with open(name, 'r') as f: json.load(f)] *)
Definition json_load {A} (name : string) (f : ledger_content A) : M A :=
  match f with
  | Json a => ret a
  | InvalidJson => raise JSONDecodeError
  | Undecodable err => raise (UnicodeDecodeError err)
  | NoFile => raise (FileNotFoundError name)
  end.

(** [except (json.JSONDecodeError, IOError): return default]
    ([FileNotFoundError] is a subclass of [IOError]; [UnicodeDecodeError]
    is a [ValueError] and neither of the two) *)
Definition on_decode_error {A} (default : A) (e : exn) : option (M A) :=
  match e with
  | JSONDecodeError | FileNotFoundError _ => Some (ret default)
  | _ => None
  end.

(** The body of [load_metadata], on the file it finds. *)
Definition load_metadata_from (f : ledger_content (gmap string download_record))
  : M (gmap string download_record) :=
  if content_exists f
  then try_except (json_load METADATA_FILE f) (on_decode_error ∅)
  else ret ∅.

Definition load_metadata : M (gmap string download_record) :=
  do st <- get;
  load_metadata_from (on_disk (metadata_file st)).

Definition save_metadata (metadata : gmap string download_record) : M unit :=
  modify (with_metadata_file (Holds metadata)).

(** The body of [load_failed_downloads], on the file it finds. *)
Definition load_failed_downloads_from (f : ledger_content (list failed_record))
  : M (list failed_record) :=
  if content_exists f
  then try_except (json_load FAILED_DOWNLOADS_FILE f) (on_decode_error [])
  else ret [].

Definition load_failed_downloads : M (list failed_record) :=
  do st <- get;
  load_failed_downloads_from (on_disk (failed_downloads_file st)).

Definition log_failed_download (url dest error : string) : M unit :=
  do failed <- load_failed_downloads;
  do now <- time_time;
  modify (with_failed_downloads_file
            (Holds (failed ++ [ {| fr_url := url; fr_dest := dest;
                                   fr_error := error;
                                   fr_failed_at := now |} ]))).

(** [set(json.load(f))]: the file holds a sequence, the script uses a set. *)
Definition load_processed_tasks_from (f : ledger_content (list string))
  : M (gset string) :=
  if content_exists f
  then try_except
         (do l <- json_load PROCESSED_TASKS_FILE f;
          ret (list_to_set l))
         (on_decode_error ∅)
  else ret ∅.

Definition load_processed_tasks : M (gset string) :=
  do st <- get;
  load_processed_tasks_from (on_disk (processed_tasks_file st)).

(** [json.dump(list(processed_tasks), f)]: Python leaves the order of
    [list(a_set)] unspecified; [elements] fixes one. *)
Definition mark_task_processed (task_id : string) : M unit :=
  do processed_tasks <- load_processed_tasks;
  modify (with_processed_tasks_file
            (Holds (elements (processed_tasks ∪ {[ task_id ]})))).

(** ** Files of the image tree *)

(** [file_path.exists()] *)
Definition path_exists (file_key : string) : M bool :=
  do st <- get; ret (bool_decide (is_Some (files st !! file_key))).

(** [file_path.stat().st_size] *)
Definition st_size (file_key : string) : M Z :=
  do st <- get;
  match files st !! file_key with
  | Some content => ret (Z.of_nat (length content))
  | None => raise (FileNotFoundError file_key)
  end.

(** [open(dest, "wb")] creates or truncates the file. *)
Definition open_wb (file_key : string) : M unit :=
  modify (fun st => with_files (<[ file_key := [] ]> (files st)) st).

(** [f.write(chunk)] *)
Definition write (file_key : string) (chunk : list byte) : M unit :=
  modify (fun st =>
            with_files (alter (fun c => c ++ chunk) file_key (files st)) st).

(** [dest.unlink()] *)
Definition unlink (file_key : string) : M unit :=
  modify (fun st => with_files (delete file_key (files st)) st).

(** Python truthiness of an optional integer: [None] and [0] are false. *)
Definition truthy_int (n : option Z) : bool :=
  match n with
  | Some z => negb (z =? 0)
  | None => false
  end.

(** [x != expected_size] for an integer [x] *)
Definition differs (x : Z) (expected_size : option Z) : bool :=
  match expected_size with
  | Some z => negb (x =? z)
  | None => true
  end.

Definition is_duplicate (file_key url : string) (expected_size : option Z)
  : M bool :=
  do ex <- path_exists file_key;
  if negb ex then ret false else
  (* Check file size if provided *)
  do mismatch <-
    (if truthy_int expected_size
     then do sz <- st_size file_key; ret (differs sz expected_size)
     else ret false);
  if mismatch then ret false else
  (* Load metadata to check if this URL was already downloaded *)
  do metadata <- load_metadata;
  match metadata !! file_key with
  | Some stored_info =>
      if String.eqb (dr_url stored_info) url then
        do ex2 <- path_exists file_key;
        if ex2 then
          do sz <- st_size file_key;
          if dr_size stored_info =? sz then ret true else ret false
        else ret false
      else ret false
  | None => ret false
  end.

Definition record_download (file_key url : string) (size : Z) : M unit :=
  do metadata <- load_metadata;
  do now <- time_time;
  save_metadata
    (<[ file_key := {| dr_url := url; dr_size := size;
                       dr_downloaded_at := now |} ]> metadata).

(** ** The remote side *)

(** A list of a space: the script reads [lst["id"]] and [lst["name"]]. *)
Record lst : Type := mk_lst { lst_id : string; lst_name : string }.

(** An attachment of a task detail; a field is [None] when the key is
    missing from the JSON object. *)
Record attachment : Type := mk_attachment
  { att_mimetype : option string;
    att_title : option string;
    att_filename : option string;
    att_url : option string }.

(** One page of [/list/{id}/task]; a task of the listing is its ["id"]. *)
Record task_page : Type := mk_task_page
  { pg_tasks : option (list string);
    pg_last_page : option bool }.

(** What [requests.get(url, stream=True)] and the streaming of the body do:
    the request fails, the status is an error, or a body arrives in chunks
    and may break off with an error after them. *)
Inductive http_response : Type :=
  | ConnectionFailed (err : string)
  | BadStatus (err : string)
  | Streamed (content_length : option string) (chunks : list (list byte))
             (broken : option string).

(** Every API answer is an error message ([inl]: the request or
    [raise_for_status] failed) or the decoded JSON body ([inr]). *)
Record remote : Type := mk_remote
  { api_spaces : string + option (list (string * string));
    api_lists : string -> string + option (list lst);
    api_folders : string -> string + option (list (option (list lst)));
    api_task_page : string -> nat -> string + task_page;
    api_task : string -> string + option (list attachment);
    http_get : string -> http_response }.

(** ** Python helpers *)

(** [int(s)] for a [str] whose characters are Latin-1 code points, as the
    values of HTTP headers are. *)

(** [Py_ISSPACE]: the blanks [int] skips at both ends. *)
Definition is_space (c : ascii) : bool :=
  let n := nat_of_ascii c in
  (n =? 32)%nat || ((9 <=? n)%nat && (n <=? 13)%nat).

(** Before parsing, a non-ASCII blank (NEL, NBSP) becomes a space and any
    other character from 127 on becomes [?]; there is no decimal digit in
    Latin-1 beyond ASCII. *)
Definition to_ascii (c : ascii) : ascii :=
  let n := nat_of_ascii c in
  if (n <? 127)%nat then c
  else if (n =? 133)%nat || (n =? 160)%nat then " "%char
  else "?"%char.

Definition digit_of (c : ascii) : option Z :=
  let n := Z.of_nat (nat_of_ascii c) in
  if (48 <=? n) && (n <=? 57) then Some (n - 48) else None.

Fixpoint lstrip (s : list ascii) : list ascii :=
  match s with
  | c :: s' => if is_space c then lstrip s' else s
  | [] => []
  end.

Definition strip (s : list ascii) : list ascii :=
  rev (lstrip (rev (lstrip s))).

(** Decimal digits, single underscores allowed between two digits; the
    value and the number of digits. *)
Fixpoint digits (acc : Z) (count : nat) (after_digit : bool) (s : list ascii)
  : option (Z * nat) :=
  match s with
  | [] => if after_digit then Some (acc, count) else None
  | c :: s' =>
      match digit_of c with
      | Some d => digits (10 * acc + d) (S count) true s'
      | None =>
          if Ascii.eqb c "_" && after_digit
          then digits acc count false s' else None
      end
  end.

(** The literal [int] reads: blanks, a sign, digits, blanks. *)
Definition int_literal (s : string) : option (Z * nat) :=
  match strip (map to_ascii (list_ascii_of_string s)) with
  | c :: ds =>
      if Ascii.eqb c "-"
      then (fun vn => (Z.opp vn.1, vn.2)) <$> digits 0 0 false ds
      else if Ascii.eqb c "+" then digits 0 0 false ds
      else digits 0 0 false (c :: ds)
  | [] => None
  end.

(** [sys.get_int_max_str_digits()], the default *)
Definition int_max_str_digits : nat := 4300.

(** [int(s)]: [None] is [ValueError]. *)
Definition py_int (s : string) : option Z :=
  match int_literal s with
  | Some (v, n) => if (n <=? int_max_str_digits)%nat then Some v else None
  | None => None
  end.

Definition hex_digit (n : nat) : ascii :=
  ascii_of_nat (if (n <? 10)%nat then 48 + n else 87 + n).

Definition backslash : ascii := ascii_of_nat 92.
Definition double_quote : ascii := ascii_of_nat 34.
Definition single_quote : ascii := ascii_of_nat 39.

(** One character of [repr(s)] inside the quotes [quote]. *)
Definition repr_char (quote c : ascii) : string :=
  let n := nat_of_ascii c in
  let hex := String backslash (String "x"%char
               (String (hex_digit (n / 16)) (String (hex_digit (n mod 16))
                  EmptyString))) in
  if Ascii.eqb c quote || Ascii.eqb c backslash
  then String backslash (String c EmptyString)
  else if (n =? 9)%nat then String backslash "t"
  else if (n =? 10)%nat then String backslash "n"
  else if (n =? 13)%nat then String backslash "r"
  else if (n <? 32)%nat || (n =? 127)%nat then hex
  else if (n <? 127)%nat then String c EmptyString
  else if (n <=? 160)%nat || (n =? 173)%nat then hex
  else String c EmptyString.

Definition has_char (c : ascii) (s : string) : bool :=
  existsb (Ascii.eqb c) (list_ascii_of_string s).

(** [repr(s)]: single quotes, unless [s] holds one and no double quote. *)
Definition py_repr (s : string) : string :=
  let quote :=
    if has_char single_quote s && negb (has_char double_quote s)
    then double_quote else single_quote in
  String quote
    (String.concat EmptyString (map (repr_char quote) (list_ascii_of_string s))
     +:+ String quote EmptyString).

(** [str(e)] of the [ValueError] of [int(s)]; the literal is printed with
    [%.200R]. *)
Definition int_error (s : string) : string :=
  match int_literal s with
  | Some (_, n) =>
      "Exceeds the limit (" +:+ pretty int_max_str_digits
      +:+ " digits) for integer string conversion: value has " +:+ pretty n
      +:+ " digits; use sys.set_int_max_str_digits() to increase the limit"
  | None =>
      "invalid literal for int() with base 10: "
      +:+ String.substring 0 200 (py_repr s)
  end.

(** [a or b] on optional strings: [None] and the empty string are false. *)
Definition py_or (a b : option string) : option string :=
  match a with
  | Some s => if String.eqb s EmptyString then b else Some s
  | None => b
  end.

(** [d[k] = v] on a dict kept in insertion order *)
Fixpoint dict_set (k v : string) (d : list (string * string))
  : list (string * string) :=
  match d with
  | [] => [(k, v)]
  | (k', v') :: d' =>
      if String.eqb k' k then (k, v) :: d' else (k', v') :: dict_set k v d'
  end.

(** ** API client and hierarchy walker *)

Definition api_get {A} (req : request) (response : string + A) : M A :=
  run emit (EApiGet req);
  match response with
  | inl err => raise (RequestException err)
  | inr data => ret data
  end.

Definition get_spaces (r : remote) : M (list (string * string)) :=
  do body <- api_get GetSpaces (api_spaces r);
  match body with
  | None => raise (KeyError "spaces")
  | Some data => ret (fold_left (fun d s => dict_set s.1 s.2 d) data [])
  end.

Definition get_folder_lists (r : remote) (space_id : string) : M (list lst) :=
  (* folder-less lists *)
  do a <- api_get (GetLists space_id) (api_lists r space_id);
  (* lists inside folders *)
  do fs <- api_get (GetFolders space_id) (api_folders r space_id);
  ret (default [] a ++ concat (map (default []) (default [] fs))).

(** The [while True] loop of [iter_tasks], consumed by [list(...)] as
    [main] does; [fuel] bounds the number of pages requested. *)
Fixpoint iter_tasks_from (fuel : nat) (r : remote) (list_id : string)
  (page : nat) : M (list string) :=
  match fuel with
  | O => diverge
  | S fuel' =>
      do data <- api_get (GetTaskPage list_id page)
                         (api_task_page r list_id page);
      let tasks := default [] (pg_tasks data) in
      if default true (pg_last_page data) then ret tasks
      else
        run sleep;
        do rest <- iter_tasks_from fuel' r list_id (S page);
        ret (tasks ++ rest)
  end.

Definition iter_tasks (fuel : nat) (r : remote) (list_id : string)
  : M (list string) :=
  iter_tasks_from fuel r list_id 0.

(** ** Download engine *)

(** [int(content_length) if content_length else None] *)
Definition parse_content_length (content_length : option string)
  : M (option Z) :=
  match content_length with
  | Some s =>
      if String.eqb s EmptyString then ret None
      else match py_int s with
           | Some n => ret (Some n)
           | None => raise (ValueError (int_error s))
           end
  | None => ret None
  end.

(** [except requests.exceptions.RequestException as e] of [download] *)
Definition download_handler (url dest : string) (e : exn) : option (M bool) :=
  match e with
  | RequestException _ =>
      Some (
        (* Log the failed download *)
        run log_failed_download url dest (str_exn e);
        (* Clean up partial file if it exists *)
        do ex <- path_exists dest;
        run (if ex then unlink dest else ret tt);
        ret false)
  | _ => None
  end.

Definition download (r : remote) (url dest : string) : M bool :=
  try_except
    (run emit (EHttpGet url);
     match http_get r url with
     | ConnectionFailed err => raise (RequestException err)
     | BadStatus err => raise (RequestException err)
     | Streamed content_length chunks broken =>
         do expected_size <- parse_content_length content_length;
         run open_wb dest;
         run for_each chunks (write dest);
         run match broken with
             | Some err => raise (RequestException err)
             | None => ret tt
             end;
         (* Record the download in metadata *)
         do actual_size <- st_size dest;
         run record_download dest url actual_size;
         ret true
     end)
    (download_handler url dest).

(** ** Orchestrator *)

Definition add_counters (imgs failed : nat) : M unit :=
  modify (fun st => with_counters (total_imgs st + imgs)
                                  (failed_downloads st + failed) st).

(** [OUT_DIR / sname / lname / fname], relative to [OUT_DIR] *)
Definition dest_path (sname lname fname : string) : string :=
  sname +:+ "/" +:+ lname +:+ "/" +:+ fname.

(** *** The console

    [console.print(line)] renders the rich markup of [line]; rich raises
    [MarkupError] when a closing tag matches no open tag.  [rich line] is
    the message of that error, if rendering [line] raises it. *)
Definition console_print (rich : string -> option string) (line : string)
  (m : message) : M unit :=
  match rich line with
  | Some err => raise (MarkupError err)
  | None => emit (EPrint m)
  end.

(** A console on which every line renders. *)
Definition plain_console : string -> option string := fun _ => None.

(** The f-strings of the processing loop. *)
Definition downloading_line (fname : string) : string :=
  "[dim]  Downloading: " +:+ fname +:+ "[/dim]".
Definition failed_line (fname : string) : string :=
  "[red]  Failed to download: " +:+ fname +:+ "[/red]".
Definition skipping_line (fname : string) : string :=
  "[dim]  Skipping duplicate: " +:+ fname +:+ "[/dim]".
Definition task_error_line (task_id err : string) : string :=
  "[red]  Error processing task " +:+ task_id +:+ ": " +:+ err +:+ "[/red]".

(** The body of [for att in tdata.get("attachments", [])]. *)
Definition process_attachment_on (rich : string -> option string) (r : remote)
  (sname lname : string) (att : attachment) : M unit :=
  if String.prefix "image/" (default EmptyString (att_mimetype att)) then
    match py_or (att_title att) (att_filename att) with
    | None =>
        raise (TypeError
          "unsupported operand type(s) for /: 'PosixPath' and 'NoneType'")
    | Some fname =>
        let path := dest_path sname lname fname in
        match att_url att with
        | None => raise (KeyError "url")
        | Some url =>
            (* Check for duplicates using improved method *)
            do dup <- is_duplicate path url None;
            if negb dup then
              run console_print rich (downloading_line fname)
                                (Downloading fname);
              do success <- download r url path;
              run (if success then add_counters 1 0
                   else run add_counters 0 1;
                        console_print rich (failed_line fname)
                                      (FailedToDownload fname));
              sleep
            else console_print rich (skipping_line fname)
                               (SkippingDuplicate fname)
        end
    end
  else ret tt.

(** The [try] block of a task up to, and without, [mark_task_processed]. *)
Definition task_attachments_on (rich : string -> option string) (r : remote)
  (sname lname task_id : string) : M unit :=
  do tdata <- api_get (GetTask task_id) (api_task r task_id);
  for_each (default [] tdata) (process_attachment_on rich r sname lname).

(** [except Exception as e: console.print(...); continue] *)
Definition task_handler_on (rich : string -> option string)
  (task_id : string) (e : exn) : option (M bool) :=
  Some (run console_print rich (task_error_line task_id (str_exn e))
                          (ErrorProcessingTask task_id (str_exn e));
        ret false).

(** The body of [for task in remaining_list_tasks]; the boolean says whether
    the [try] block completed, [continue] skips the final sleep. *)
Definition process_task_on (rich : string -> option string) (r : remote)
  (sname lname task_id : string) : M unit :=
  do completed <-
    try_except
      (run task_attachments_on rich r sname lname task_id;
       (* Mark task as processed *)
       run mark_task_processed task_id;
       ret true)
      (task_handler_on rich task_id);
  if completed then sleep else ret tt.

(** The same on a console on which every line renders. *)
Definition process_attachment (r : remote) (sname lname : string)
  (att : attachment) : M unit :=
  process_attachment_on plain_console r sname lname att.

Definition task_attachments (r : remote) (sname lname task_id : string)
  : M unit :=
  task_attachments_on plain_console r sname lname task_id.

Definition task_handler (task_id : string) (e : exn) : option (M bool) :=
  task_handler_on plain_console task_id e.

Definition process_task (r : remote) (sname lname task_id : string) : M unit :=
  process_task_on plain_console r sname lname task_id.

Definition remaining_list_tasks (processed_tasks : gset string)
  (tasks : list string) : list string :=
  filter (fun t => t ∉ processed_tasks) tasks.

(** The body of [for sid, sname, lst, tasks in all_lists]. *)
Definition process_list_on (rich : string -> option string) (r : remote)
  (processed_tasks : gset string)
  (entry : string * string * lst * list string) : M unit :=
  let '(sid, sname, l, tasks) := entry in
  let lname := lst_name l in
  let remaining := remaining_list_tasks processed_tasks tasks in
  match remaining with
  | [] => ret tt
  | _ => for_each remaining (process_task_on rich r sname lname)
  end.

Definition process_list (r : remote) (processed_tasks : gset string)
  (entry : string * string * lst * list string) : M unit :=
  process_list_on plain_console r processed_tasks entry.

(** The counting pass: local variables [total_tasks], [remaining_tasks] and
    [all_lists]. *)
Definition counting_vars : Type :=
  (nat * nat * list (string * string * lst * list string))%type.

Definition count_list (fuel : nat) (r : remote) (processed_tasks : gset string)
  (sid sname : string) (acc : counting_vars) (l : lst) : M counting_vars :=
  let '(total_tasks, remaining_tasks, all_lists) := acc in
  do tasks <- iter_tasks fuel r (lst_id l);
  let task_count := length tasks in
  let remaining_count := length (remaining_list_tasks processed_tasks tasks) in
  ret ((total_tasks + task_count)%nat,
       (remaining_tasks + remaining_count)%nat,
       all_lists ++ [(sid, sname, l, tasks)]).

Definition count_space (fuel : nat) (r : remote) (processed_tasks : gset string)
  (acc : counting_vars) (space : string * string) : M counting_vars :=
  let '(sid, sname) := space in
  do lists <- get_folder_lists r sid;
  for_fold lists acc (count_list fuel r processed_tasks sid sname).

Definition main_on (rich : string -> option string) (fuel : nat) (r : remote)
  : M unit :=
  (* Load processed tasks for resumption *)
  do processed_tasks <- load_processed_tasks;
  run emit (EPrint (Header (size processed_tasks)));
  do spaces <- get_spaces r;
  run emit (EPrint (FoundSpaces (length spaces)));
  (* Count total tasks for progress tracking *)
  do counted <- for_fold spaces (0%nat, 0%nat, [])
                         (count_space fuel r processed_tasks);
  let '(total_tasks, remaining_tasks, all_lists) := counted in
  run emit (EPrint (FoundTasks total_tasks remaining_tasks));
  run modify (with_counters 0 0);
  run for_each all_lists (process_list_on rich r processed_tasks);
  (* Final summary *)
  do st <- get;
  emit (EPrint (Complete (total_imgs st) (failed_downloads st))).

Definition main (fuel : nat) (r : remote) : M unit :=
  main_on plain_console fuel r.

(** * Properties *)

(** ** What the ledgers hold, as the loaders see it *)

Definition stored_metadata (st : state) : gmap string download_record :=
  match metadata_file st with Holds m => m | _ => ∅ end.

Definition stored_failed (st : state) : list failed_record :=
  match failed_downloads_file st with Holds l => l | _ => [] end.

Definition stored_processed (st : state) : gset string :=
  match processed_tasks_file st with Holds l => list_to_set l | _ => ∅ end.

(** The size of the file at [file_key], when it exists. *)
Definition size_on_disk (st : state) (file_key : string) : option Z :=
  (fun c => Z.of_nat (length c)) <$> files st !! file_key.

(** The lists inside the folders of a space, folder after folder; a folder
    without the key ["lists"] contributes none. *)
Fixpoint lists_in_folders (folders : list (option (list lst))) : list lst :=
  match folders with
  | [] => []
  | Some ls :: rest => ls ++ lists_in_folders rest
  | None :: rest => lists_in_folders rest
  end.

(** The condition under which the orchestrator skips an attachment. *)
Definition recorded_intact (st : state) (file_key url : string) : bool :=
  match size_on_disk st file_key, stored_metadata st !! file_key with
  | Some sz, Some info => String.eqb (dr_url info) url && (dr_size info =? sz)
  | _, _ => false
  end.

(** The answer of [is_duplicate] in closed form. *)
Definition is_duplicate_answer (st : state) (file_key url : string)
  (expected_size : option Z) : bool :=
  match size_on_disk st file_key with
  | None => false
  | Some sz =>
      if truthy_int expected_size && differs sz expected_size then false
      else recorded_intact st file_key url
  end.

(** Result, final state and events of a computation. *)
Definition result_of {A} (x : res A * state * list event) : res A := x.1.1.
Definition state_of {A} (x : res A * state * list event) : state := x.1.2.
Definition events_of {A} (x : res A * state * list event) : list event := x.2.

(** ** Concrete runs used as examples *)

Definition empty_state : state :=
  {| files := ∅; metadata_file := Absent; failed_downloads_file := Absent;
     processed_tasks_file := Absent; clock := 0;
     total_imgs := 0; failed_downloads := 0 |}.



(** [int(content_length) if content_length else None] does not raise. *)
Definition content_length_ok (content_length : option string) : bool :=
  match content_length with
  | Some s => String.eqb s EmptyString || bool_decide (is_Some (py_int s))
  | None => true
  end.


(** The state [download] leaves behind after a [RequestException]. *)
Definition after_failed_download (st : state) (url dest err : string) : state :=
  with_files (delete dest (files st))
    (with_failed_downloads_file
       (Holds (stored_failed st ++
               [ {| fr_url := url; fr_dest := dest; fr_error := err;
                    fr_failed_at := clock st |} ])) st).

(** The state [download] leaves behind after a complete body. *)
Definition after_download (st : state) (url dest : string)
  (chunks : list (list byte)) : state :=
  with_metadata_file
    (Holds (<[ dest := {| dr_url := url;
                          dr_size := Z.of_nat (length (concat chunks));
                          dr_downloaded_at := clock st |} ]>
            (stored_metadata st)))
    (with_files (<[ dest := concat chunks ]> (files st)) st).

(** A compressed answer: Content-Length counts the 24 bytes on the wire,
    [iter_content] yields the four bytes they decode to. *)
Definition compressed_remote : remote :=
  {| api_spaces := inr (Some []);
     api_lists := fun _ => inr None;
     api_folders := fun _ => inr None;
     api_task_page := fun _ _ => inr {| pg_tasks := None; pg_last_page := None |};
     api_task := fun _ => inr None;
     http_get := fun _ =>
       Streamed (Some "24") [[x00; x01; x02; x03]%byte] None |}.



(** ** Pagination, as the API reports it *)

(** The tasks of page [i] of a list. *)
Definition page_tasks (r : remote) (list_id : string) (i : nat) : list string :=
  match api_task_page r list_id i with
  | inr pg => default [] (pg_tasks pg)
  | inl _ => []
  end.

(** Page [i] answers and carries [last_page: false]. *)
Definition has_more (r : remote) (list_id : string) (i : nat) : bool :=
  match api_task_page r list_id i with
  | inr pg => match pg_last_page pg with Some false => true | _ => false end
  | inl _ => false
  end.

(** Page [i] answers and is reported as last, or carries no flag. *)
Definition is_last (r : remote) (list_id : string) (i : nat) : bool :=
  match api_task_page r list_id i with
  | inr pg => match pg_last_page pg with Some false => false | _ => true end
  | inl _ => false
  end.

(** The events of a walk over pages [p .. p + n]: one request per page, one
    sleep between two requests. *)
Fixpoint page_events (list_id : string) (p n : nat) : list event :=
  match n with
  | O => [EApiGet (GetTaskPage list_id p)]
  | S n' => EApiGet (GetTaskPage list_id p) :: ESleep
            :: page_events list_id (S p) n'
  end.

Definition is_page_request (e : event) : bool :=
  match e with EApiGet (GetTaskPage _ _) => true | _ => false end.

Definition is_sleep (e : event) : bool :=
  match e with ESleep => true | _ => false end.

Definition is_download_attempt (e : event) : bool :=
  match e with EHttpGet _ => true | _ => false end.

Definition count_events (p : event -> bool) (tr : list event) : nat :=
  length (List.filter p tr).

(** A list whose three pages hold [a; b], [c] and [d]; the last page carries
    no flag. *)
Definition three_pages_remote : remote :=
  {| api_spaces := inr (Some []);
     api_lists := fun _ => inr None;
     api_folders := fun _ => inr None;
     api_task_page := fun _ i =>
       match i with
       | 0%nat => inr {| pg_tasks := Some ["a"; "b"]; pg_last_page := Some false |}
       | 1%nat => inr {| pg_tasks := Some ["c"]; pg_last_page := Some false |}
       | _ => inr {| pg_tasks := Some ["d"]; pg_last_page := None |}
       end;
     api_task := fun _ => inr None;
     http_get := fun _ => BadStatus "404 Client Error" |}.

(** ** The shape of what one attachment does *)

(** Result and events of [process_attachment]: the attachment is not an
    image, is skipped, is downloaded, fails to download, is malformed, or its
    download raises. *)
Inductive attachment_events : res unit -> list event -> Prop :=
  | ae_not_image : attachment_events (Ret tt) []
  | ae_skipped fname :
      attachment_events (Ret tt) [EPrint (SkippingDuplicate fname)]
  | ae_downloaded fname url :
      attachment_events (Ret tt)
        [EPrint (Downloading fname); EHttpGet url; ESleep]
  | ae_failed fname url :
      attachment_events (Ret tt)
        [EPrint (Downloading fname); EHttpGet url;
         EPrint (FailedToDownload fname); ESleep]
  | ae_malformed e : attachment_events (Raise e) []
  | ae_download_raised fname url e :
      attachment_events (Raise e) [EPrint (Downloading fname); EHttpGet url].

(** The task details fetched by a run, in order. *)
Fixpoint fetched_tasks (tr : list event) : list string :=
  match tr with
  | EApiGet (GetTask task_id) :: tr' => task_id :: fetched_tasks tr'
  | _ :: tr' => fetched_tasks tr'
  | [] => []
  end.

(** The per-task errors reported by a run. *)
Definition is_task_error (e : event) : bool :=
  match e with EPrint (ErrorProcessingTask _ _) => true | _ => false end.

(** Result and events of the loop over the attachments of a task. *)
Inductive attachments_events : res unit -> list event -> Prop :=
  | aes_done : attachments_events (Ret tt) []
  | aes_next tr1 x tr2 :
      attachment_events (Ret tt) tr1 ->
      attachments_events x tr2 ->
      attachments_events x (tr1 ++ tr2)
  | aes_raised e tr1 :
      attachment_events (Raise e) tr1 ->
      attachments_events (Raise e) tr1.

(** What [process_task] leaves behind when the [try] block completed in
    state [st1]. *)
Definition after_task_completed (st1 : state) (task_id : string) : state :=
  with_clock (clock st1 + RATE_DELAY)
    (with_processed_tasks_file
       (Holds (elements (stored_processed st1 ∪ {[ task_id ]}))) st1).

(** A task with one image attachment, [a.png] from [u]. *)
Definition one_image : attachment :=
  {| att_mimetype := Some "image/png"; att_title := Some "a.png";
     att_filename := None; att_url := Some "u" |}.


(** One space [S], one list [L], one page with the task [t1], whose detail
    carries [atts]; every download answers [resp]. *)
Definition one_task_remote (atts : list attachment) (resp : http_response)
  : remote :=
  {| api_spaces := inr (Some [("sp1", "s")]);
     api_lists := fun _ => inr (Some [ {| lst_id := "l1"; lst_name := "l" |} ]);
     api_folders := fun _ => inr None;
     api_task_page := fun _ _ =>
       inr {| pg_tasks := Some ["t1"]; pg_last_page := Some true |};
     api_task := fun _ => inr (Some atts);
     http_get := fun _ => resp |}.

(** ** The two passes of [main] *)

(** The counting pass: [get_spaces] and the walk over spaces and lists. *)
Definition counting_pass (fuel : nat) (r : remote)
  (processed_tasks : gset string) : M counting_vars :=
  do spaces <- get_spaces r;
  run emit (EPrint (FoundSpaces (length spaces)));
  for_fold spaces (0%nat, 0%nat, []) (count_space fuel r processed_tasks).

(** The processing pass and the summary. *)
Definition processing_pass (r : remote) (processed_tasks : gset string)
  (counted : counting_vars) : M unit :=
  let '(total_tasks, remaining_tasks, all_lists) := counted in
  run emit (EPrint (FoundTasks total_tasks remaining_tasks));
  run modify (with_counters 0 0);
  run for_each all_lists (process_list r processed_tasks);
  do st <- get;
  emit (EPrint (Complete (total_imgs st) (failed_downloads st))).

(** A computation of the hierarchy walker: its result and events do not
    depend on the state, it only lets the clock advance, and it neither
    fetches a task detail, nor downloads, nor reports a task error. *)
Definition walker {A} (m : M A) : Prop :=
  exists x k tr,
    fetched_tasks tr = []
    /\ count_events is_task_error tr = 0%nat
    /\ count_events is_download_attempt tr = 0%nat
    /\ forall st, m st = (x, with_clock (clock st + k) st, tr).

(** The lists found by the counting pass, without the counters. *)
Definition lists_of {A B C} (x : res (A * B * C)) : res C :=
  match x with
  | Ret (_, _, all_lists) => Ret all_lists
  | Raise e => Raise e
  | Diverge => Diverge
  end.

(** All the tasks the processing pass of a run works on. *)
Definition remaining_tasks_of (processed_tasks : gset string)
  (all_lists : list (string * string * lst * list string)) : list string :=
  concat (map (fun entry => remaining_list_tasks processed_tasks entry.2)
              all_lists).



(** Task [t1] carries one image whose download is refused. *)
Definition refused_image_remote : remote :=
  one_task_remote [one_image] (BadStatus "404").

(** ** Further examples *)

(** Every download answers with the two chunks [00 01] and [02]. *)
Definition serving_remote : remote :=
  one_task_remote [one_image]
    (Streamed (Some "3") [[x00; x01]%byte; [x02]%byte] None).

(** ** Bookkeeping of a stretch of processing *)


(** The counters of the counting pass agree with the lists it collected. *)
Definition counted_ok (processed_tasks : gset string) (c : counting_vars)
  : Prop :=
  let '(total_tasks, remaining_tasks, all_lists) := c in
  total_tasks = length (concat (map snd all_lists))
  /\ remaining_tasks = length (remaining_tasks_of processed_tasks all_lists).

(** One list whose single page lists the task [t1] twice; the task has no
    attachment. *)
Definition twice_listed_remote : remote :=
  {| api_spaces := inr (Some [("sp1", "s")]);
     api_lists := fun _ => inr (Some [ {| lst_id := "l1"; lst_name := "l" |} ]);
     api_folders := fun _ => inr None;
     api_task_page := fun _ _ =>
       inr {| pg_tasks := Some ["t1"; "t1"]; pg_last_page := None |};
     api_task := fun _ => inr None;
     http_get := fun _ => BadStatus "404" |}.

(** Every page of every list answers [last_page: false]. *)
Definition endless_remote : remote :=
  {| api_spaces := inr (Some []);
     api_lists := fun _ => inr None;
     api_folders := fun _ => inr None;
     api_task_page := fun _ _ =>
       inr {| pg_tasks := Some ["a"]; pg_last_page := Some false |};
     api_task := fun _ => inr None;
     http_get := fun _ => BadStatus "404" |}.

(** The first page has more, the second request fails. *)
Definition failing_page_remote : remote :=
  {| api_spaces := inr (Some []);
     api_lists := fun _ => inr None;
     api_folders := fun _ => inr None;
     api_task_page := fun _ i =>
       match i with
       | 0%nat => inr {| pg_tasks := Some ["a"]; pg_last_page := Some false |}
       | _ => inl "500 Server Error"
       end;
     api_task := fun _ => inr None;
     http_get := fun _ => BadStatus "404" |}.

(** ** A title that rich reads as markup *)

(** An image whose title holds a closing tag. *)
Definition bracket_image : attachment :=
  {| att_mimetype := Some "image/png"; att_title := Some "[/x].png";
     att_filename := None; att_url := Some "u" |}.

(** One list with the tasks [t1] and [t2]; [t1] carries [bracket_image],
    [t2] an ordinary image. *)
Definition bracket_remote : remote :=
  {| api_spaces := inr (Some [("sp1", "s")]);
     api_lists := fun _ => inr (Some [ {| lst_id := "l1"; lst_name := "l" |} ]);
     api_folders := fun _ => inr None;
     api_task_page := fun _ _ =>
       inr {| pg_tasks := Some ["t1"; "t2"]; pg_last_page := Some true |};
     api_task := fun task_id =>
       if String.eqb task_id "t1" then inr (Some [bracket_image])
       else inr (Some [one_image]);
     http_get := fun _ => Streamed None [[x00]%byte] None |}.

(** What rich answers on the lines of this example: the closing tag [/x]
    matches no open tag, in the line that announces the download and in the
    line that reports the error of the first. *)
Definition bracket_console (line : string) : option string :=
  if String.eqb line (downloading_line "[/x].png")
  then Some "closing tag '[/x]' at position 20 doesn't match any open tag"
  else if String.eqb line
            (task_error_line "t1"
               "closing tag '[/x]' at position 20 doesn't match any open tag")
  then Some "closing tag '[/x]' at position 46 doesn't match any open tag"
  else None.


(** ** Running the ledger operations *)

Ltac unfold_prog :=
  unfold bind, ret, raise, get, modify, emit, try_except, diverge in *.

Lemma load_metadata_run st :
  load_metadata st = (Ret (stored_metadata st), st, []).
Proof.
  unfold load_metadata, stored_metadata, json_load. unfold_prog.
  destruct (metadata_file st); reflexivity.
Qed.

Lemma load_failed_downloads_run st :
  load_failed_downloads st = (Ret (stored_failed st), st, []).
Proof.
  unfold load_failed_downloads, stored_failed, json_load. unfold_prog.
  destruct (failed_downloads_file st); reflexivity.
Qed.

Lemma load_processed_tasks_run st :
  load_processed_tasks st = (Ret (stored_processed st), st, []).
Proof.
  unfold load_processed_tasks, stored_processed, json_load. unfold_prog.
  destruct (processed_tasks_file st); reflexivity.
Qed.

Lemma bind_run {A B} (m : M A) (k : A -> M B) st a st1 tr1 :
  m st = (Ret a, st1, tr1) ->
  bind m k st = (let '(r, st2, tr2) := k a st1 in (r, st2, tr1 ++ tr2)).
Proof. intros H. unfold bind. rewrite H. reflexivity. Qed.

Lemma bind_raise {A B} (m : M A) (k : A -> M B) st e st1 tr1 :
  m st = (Raise e, st1, tr1) -> bind m k st = (Raise e, st1, tr1).
Proof. intros H. unfold bind. rewrite H. reflexivity. Qed.

Lemma bind_diverge {A B} (m : M A) (k : A -> M B) st st1 tr1 :
  m st = (Diverge, st1, tr1) -> bind m k st = (Diverge, st1, tr1).
Proof. intros H. unfold bind. rewrite H. reflexivity. Qed.

Lemma record_download_run file_key url size st :
  record_download file_key url size st =
  (Ret tt,
   with_metadata_file
     (Holds (<[ file_key := {| dr_url := url; dr_size := size;
                               dr_downloaded_at := clock st |} ]>
             (stored_metadata st))) st,
   []).
Proof.
  unfold record_download.
  rewrite (bind_run _ _ _ _ _ _ (load_metadata_run st)).
  reflexivity.
Qed.

Lemma log_failed_download_run url dest error st :
  log_failed_download url dest error st =
  (Ret tt,
   with_failed_downloads_file
     (Holds (stored_failed st ++
             [ {| fr_url := url; fr_dest := dest; fr_error := error;
                  fr_failed_at := clock st |} ])) st,
   []).
Proof.
  unfold log_failed_download.
  rewrite (bind_run _ _ _ _ _ _ (load_failed_downloads_run st)).
  reflexivity.
Qed.

Lemma mark_task_processed_run task_id st :
  mark_task_processed task_id st =
  (Ret tt,
   with_processed_tasks_file
     (Holds (elements (stored_processed st ∪ {[ task_id ]}))) st,
   []).
Proof.
  unfold mark_task_processed.
  rewrite (bind_run _ _ _ _ _ _ (load_processed_tasks_run st)).
  reflexivity.
Qed.

Lemma path_exists_run file_key st :
  path_exists file_key st =
  (Ret (bool_decide (is_Some (files st !! file_key))), st, []).
Proof. reflexivity. Qed.

Lemma st_size_run file_key st c :
  files st !! file_key = Some c ->
  st_size file_key st = (Ret (Z.of_nat (length c)), st, []).
Proof. intros H. unfold st_size. unfold_prog. rewrite H. reflexivity. Qed.

Lemma is_duplicate_run file_key url expected_size st :
  is_duplicate file_key url expected_size st =
  (Ret (is_duplicate_answer st file_key url expected_size), st, []).
Proof.
  unfold is_duplicate, is_duplicate_answer, recorded_intact, size_on_disk.
  rewrite (bind_run _ _ _ _ _ _ (path_exists_run file_key st)).
  destruct (files st !! file_key) as [c|] eqn:Hf; [|reflexivity].
  rewrite bool_decide_true by eauto. cbn [negb fmap option_fmap option_map].
  assert (Hmeta : forall st',
    files st' !! file_key = Some c ->
    (do metadata <- load_metadata;
     match metadata !! file_key with
     | Some stored_info =>
         if String.eqb (dr_url stored_info) url then
           do ex2 <- path_exists file_key;
           if ex2 then
             do sz <- st_size file_key;
             if dr_size stored_info =? sz then ret true else ret false
           else ret false
         else ret false
     | None => ret false
     end) st' =
    (Ret match stored_metadata st' !! file_key with
         | Some info =>
             String.eqb (dr_url info) url && (dr_size info =? Z.of_nat (length c))
         | None => false
         end, st', [])).
  { intros st' Hf'.
    rewrite (bind_run _ _ _ _ _ _ (load_metadata_run st')).
    destruct (stored_metadata st' !! file_key) as [info|]; [|reflexivity].
    destruct (String.eqb _ _); [|reflexivity].
    rewrite (bind_run _ _ _ _ _ _ (path_exists_run file_key st')).
    rewrite bool_decide_true by eauto.
    rewrite (bind_run _ _ _ _ _ _ (st_size_run _ _ _ Hf')).
    cbn [andb]. destruct (_ =? _); reflexivity. }
  destruct (truthy_int expected_size) eqn:Ht.
  - rewrite (bind_run _ _ st (differs (Z.of_nat (length c)) expected_size) st []).
    + cbn [andb]. destruct (differs _ _); [reflexivity|].
      rewrite (Hmeta st Hf). reflexivity.
    + rewrite (bind_run _ _ _ _ _ _ (st_size_run _ _ _ Hf)). reflexivity.
  - rewrite (bind_run _ _ st false st []) by reflexivity.
    cbn [andb]. rewrite (Hmeta st Hf). reflexivity.
Qed.

(** ** Resume ledger *)

(** C7, evaluated on the code.  A ledger file whose bytes do not decode as
    text makes [json.load] raise [UnicodeDecodeError], which is neither
    [JSONDecodeError] nor [IOError]: each of the three loaders lets it
    through to the caller.  On text that is not JSON, and on a missing file,
    each loader returns its empty default and raises nothing. *)
Theorem undecodable_ledger_raises (err : string) (st : state) :
  load_metadata_from (Undecodable err) st
    = (Raise (UnicodeDecodeError err), st, [])
  /\ load_failed_downloads_from (Undecodable err) st
    = (Raise (UnicodeDecodeError err), st, [])
  /\ load_processed_tasks_from (Undecodable err) st
    = (Raise (UnicodeDecodeError err), st, [])
  /\ load_metadata_from InvalidJson st = (Ret ∅, st, [])
  /\ load_metadata_from NoFile st = (Ret ∅, st, [])
  /\ load_failed_downloads_from InvalidJson st = (Ret [], st, [])
  /\ load_failed_downloads_from NoFile st = (Ret [], st, [])
  /\ load_processed_tasks_from InvalidJson st = (Ret ∅, st, [])
  /\ load_processed_tasks_from NoFile st = (Ret ∅, st, []).
Proof. repeat split; reflexivity. Qed.

Lemma recorded_intact_iff st file_key url :
  recorded_intact st file_key url = true <->
  exists c info,
    files st !! file_key = Some c
    /\ stored_metadata st !! file_key = Some info
    /\ dr_url info = url
    /\ dr_size info = Z.of_nat (length c).
Proof.
  unfold recorded_intact, size_on_disk.
  destruct (files st !! file_key) as [c|]; simpl.
  - destruct (stored_metadata st !! file_key) as [info|].
    + rewrite andb_true_iff, String.eqb_eq, Z.eqb_eq. split.
      * intros [Hu Hs]. exists c, info. auto.
      * intros (c' & info' & Hc & Hi & Hu & Hs).
        inversion Hc; inversion Hi; subst. auto.
    + split; [discriminate|]. intros (? & ? & _ & Hi & _). discriminate.
  - split; [discriminate|]. intros (? & ? & Hc & _). discriminate.
Qed.





(** ** Download engine *)

Lemma with_files_same st : with_files (files st) st = st.
Proof. destruct st; reflexivity. Qed.

Lemma write_chunks_run dest chunks : forall st c,
  files st !! dest = Some c ->
  for_each chunks (write dest) st =
  (Ret tt, with_files (<[ dest := c ++ concat chunks ]> (files st)) st, []).
Proof.
  induction chunks as [|chunk chunks IH]; intros st c Hc; simpl.
  - rewrite app_nil_r, insert_id by exact Hc. rewrite with_files_same.
    reflexivity.
  - unfold bind, write, modify at 1.
    rewrite (IH _ (c ++ chunk)).
    + simpl. rewrite <- app_assoc. f_equal. f_equal. unfold with_files. simpl.
      f_equal. apply map_eq. intros k. destruct (decide (dest = k)) as [->|Hk].
      * rewrite !lookup_insert_eq. reflexivity.
      * rewrite !lookup_insert_ne, lookup_alter_ne by exact Hk. reflexivity.
    + simpl. rewrite lookup_alter_eq, Hc. reflexivity.
Qed.

Lemma parse_content_length_ok content_length st :
  content_length_ok content_length = true ->
  exists n, parse_content_length content_length st = (Ret n, st, []).
Proof.
  unfold content_length_ok, parse_content_length.
  destruct content_length as [s|]; [|eauto].
  destruct (String.eqb s EmptyString); [eauto|]. simpl.
  destruct (py_int s); [eauto|]. intros H. apply bool_decide_eq_true in H.
  destruct H. discriminate.
Qed.

Lemma failure_handler_run url dest err st :
  (run log_failed_download url dest err;
   do ex <- path_exists dest;
   run (if ex then unlink dest else ret tt);
   ret false) st
  = (Ret false, after_failed_download st url dest err, []).
Proof.
  rewrite (bind_run _ _ _ _ _ _ (log_failed_download_run _ _ _ _)).
  match goal with
  | |- context [bind (path_exists dest) ?k ?s] =>
      rewrite (bind_run (path_exists dest) k s _ _ _ (path_exists_run dest s))
  end.
  unfold after_failed_download.
  set (st1 := with_failed_downloads_file _ st).
  destruct (files st1 !! dest) as [c|] eqn:Hc.
  - rewrite bool_decide_true by eauto. reflexivity.
  - rewrite bool_decide_false by (intros [? ?]; discriminate).
    unfold_prog. simpl. rewrite delete_id by exact Hc.
    reflexivity.
Qed.

(** The three ways a download can go, in closed form. *)
Lemma download_request_failed r url dest st err :
  http_get r url = ConnectionFailed err \/ http_get r url = BadStatus err ->
  download r url dest st
  = (Ret false, after_failed_download st url dest err, [EHttpGet url]).
Proof.
  intros H. unfold download, try_except.
  assert (Hbody :
    (run emit (EHttpGet url);
     match http_get r url with
     | ConnectionFailed err => raise (RequestException err)
     | BadStatus err => raise (RequestException err)
     | Streamed content_length chunks broken =>
         do expected_size <- parse_content_length content_length;
         run open_wb dest;
         run for_each chunks (write dest);
         run match broken with
             | Some err => raise (RequestException err)
             | None => ret tt
             end;
         do actual_size <- st_size dest;
         run record_download dest url actual_size;
         ret true
     end) st = (Raise (RequestException err), st, [EHttpGet url])).
  { destruct H as [-> | ->]; reflexivity. }
  rewrite Hbody. cbn [download_handler str_exn].
  rewrite failure_handler_run. reflexivity.
Qed.

Lemma download_streamed r url dest st content_length chunks broken :
  http_get r url = Streamed content_length chunks broken ->
  content_length_ok content_length = true ->
  download r url dest st =
  match broken with
  | Some err =>
      (Ret false, after_failed_download st url dest err, [EHttpGet url])
  | None => (Ret true, after_download st url dest chunks, [EHttpGet url])
  end.
Proof.
  intros Hget Hok. unfold download.
  destruct (parse_content_length_ok content_length st Hok) as [n Hn].
  set (st1 := with_files (<[ dest := concat chunks ]> (files st)) st).
  unfold try_except.
  rewrite (bind_run _ _ st tt st [EHttpGet url] eq_refl). rewrite Hget.
  rewrite (bind_run _ _ _ _ _ _ Hn).
  rewrite (bind_run (open_wb dest) _ st tt
             (with_files (<[ dest := [] ]> (files st)) st) [] eq_refl).
  rewrite (bind_run _ _ _ _ _ _
             (write_chunks_run dest chunks _ [] (lookup_insert_eq _ _ _))).
  cbn [app with_files files]. rewrite insert_insert_eq.
  change (with_files _ (with_files _ st)) with st1.
  destruct broken as [err|].
  - rewrite (bind_raise _ _ st1 (RequestException err) st1 []) by reflexivity.
    cbn [app download_handler str_exn].
    rewrite failure_handler_run. unfold after_failed_download, st1. simpl.
    rewrite delete_insert_eq. reflexivity.
  - rewrite (bind_run _ _ st1 tt st1 [] eq_refl).
    rewrite (bind_run _ _ _ _ _ _
               (st_size_run dest st1 (concat chunks) (lookup_insert_eq _ _ _))).
    rewrite (bind_run _ _ _ _ _ _ (record_download_run _ _ _ _)).
    reflexivity.
Qed.

Lemma download_bad_length r url dest st s chunks broken :
  http_get r url = Streamed (Some s) chunks broken ->
  content_length_ok (Some s) = false ->
  download r url dest st =
  (Raise (ValueError (int_error s)), st, [EHttpGet url]).
Proof.
  intros Hget Hok. unfold download, try_except.
  unfold bind at 1. unfold emit at 1. rewrite Hget.
  unfold content_length_ok in Hok. apply orb_false_iff in Hok as [He Hp].
  unfold parse_content_length. rewrite He.
  destruct (py_int s) as [n|].
  - rewrite bool_decide_true in Hp by eauto. discriminate.
  - reflexivity.
Qed.




(** C8, as the claim states it, fails on a compressed answer: the response
    announces 24 bytes, the body written to disk has four, and [download]
    records the download as a success without comparing the two. *)
Lemma download_ignores_content_length_counterexample :
  parse_content_length (Some "24") empty_state = (Ret (Some 24), empty_state, [])
  /\ download compressed_remote "u" "s/l/a.png" empty_state
     = (Ret true,
        after_download empty_state "u" "s/l/a.png" [[x00; x01; x02; x03]%byte],
        [EHttpGet "u"])
  /\ stored_metadata
       (after_download empty_state "u" "s/l/a.png" [[x00; x01; x02; x03]%byte])
       !! "s/l/a.png"
     = Some {| dr_url := "u"; dr_size := 4; dr_downloaded_at := 0 |}.
Proof.
  split; [reflexivity|]. split; [|reflexivity].
  apply (download_streamed compressed_remote "u" "s/l/a.png" empty_state
           (Some "24") _ None); reflexivity.
Qed.

(** C8, amended.  For every download whose body arrives complete, whatever
    the Content-Length header announces (as long as [int] reads it),
    [download] stats the file after streaming the body to disk and records
    that size, the size of what it wrote, as a success; the expected size
    computed from the header takes no part in it. *)
Theorem download_records_written_size (r : remote) (url dest : string)
  (st : state) (content_length : option string) (chunks : list (list byte)) :
  http_get r url = Streamed content_length chunks None ->
  content_length_ok content_length = true ->
  download r url dest st
    = (Ret true, after_download st url dest chunks, [EHttpGet url])
  /\ size_on_disk (after_download st url dest chunks) dest
     = Some (Z.of_nat (length (concat chunks)))
  /\ stored_metadata (after_download st url dest chunks) !! dest
     = Some {| dr_url := url;
               dr_size := Z.of_nat (length (concat chunks));
               dr_downloaded_at := clock st |}.
Proof.
  intros Hget Hok. split; [|split].
  - apply (download_streamed r url dest st _ _ None Hget Hok).
  - unfold size_on_disk, after_download. simpl. rewrite lookup_insert_eq.
    reflexivity.
  - unfold stored_metadata, after_download. simpl. apply lookup_insert_eq.
Qed.

Lemma download_records_written_size_witness :
  download serving_remote "u" "s/l/a.png" empty_state
  = (Ret true,
     after_download empty_state "u" "s/l/a.png" [[x00; x01]%byte; [x02]%byte],
     [EHttpGet "u"])
  /\ size_on_disk
       (after_download empty_state "u" "s/l/a.png" [[x00; x01]%byte; [x02]%byte])
       "s/l/a.png" = Some 3.
Proof.
  destruct (download_records_written_size serving_remote "u" "s/l/a.png"
              empty_state (Some "3") [[x00; x01]%byte; [x02]%byte]
              eq_refl eq_refl) as (H1 & H2 & _).
  split; [exact H1 | exact H2].
Defined.

(** ** Hierarchy walker *)

Lemma with_clock_same st : with_clock (clock st + 0) st = st.
Proof. rewrite Z.add_0_r. destruct st; reflexivity. Qed.

Lemma sleep_run st :
  sleep st = (Ret tt, with_clock (clock st + RATE_DELAY) st, [ESleep]).
Proof. reflexivity. Qed.

Lemma iter_tasks_from_run r list_id : forall n fuel p st,
  (n < fuel)%nat ->
  (forall i, (i < n)%nat -> has_more r list_id (p + i) = true) ->
  is_last r list_id (p + n) = true ->
  iter_tasks_from fuel r list_id p st
  = (Ret (concat (map (page_tasks r list_id) (seq p (S n)))),
     with_clock (clock st + Z.of_nat n * RATE_DELAY) st,
     page_events list_id p n).
Proof.
  induction n as [|n IH]; intros fuel p st Hfuel Hmore Hlast.
  - destruct fuel as [|fuel]; [lia|]. simpl.
    unfold is_last in Hlast. rewrite Nat.add_0_r in Hlast.
    unfold page_tasks, api_get.
    destruct (api_task_page r list_id p) as [e|pg]; [discriminate|].
    unfold_prog. simpl.
    destruct (pg_last_page pg) as [[]|]; try discriminate; simpl;
      rewrite app_nil_r, with_clock_same; reflexivity.
  - destruct fuel as [|fuel]; [lia|]. simpl.
    pose proof (Hmore 0%nat ltac:(lia)) as H0. rewrite Nat.add_0_r in H0.
    unfold has_more in H0. unfold page_tasks at 1. unfold api_get.
    destruct (api_task_page r list_id p) as [e|pg] eqn:Hpg; [discriminate|].
    destruct (pg_last_page pg) as [[]|] eqn:Hlp; try discriminate.
    rewrite (bind_run _ _ st pg st [EApiGet (GetTaskPage list_id p)])
      by reflexivity.
    rewrite Hlp. cbn [from_option id].
    rewrite (bind_run _ _ _ _ _ _ (sleep_run st)).
    rewrite (bind_run _ _ _ _ _ _
               (IH fuel (S p) _ ltac:(lia)
                  ltac:(intros i Hi; replace (S p + i)%nat with (p + S i)%nat
                          by lia; apply Hmore; lia)
                  ltac:(replace (S p + n)%nat with (p + S n)%nat by lia;
                        exact Hlast))).
    unfold ret. simpl. rewrite app_nil_r.
    f_equal. f_equal. unfold with_clock. simpl. f_equal. lia.
Qed.

Lemma count_page_events list_id : forall n p,
  count_events is_page_request (page_events list_id p n) = S n
  /\ count_events is_sleep (page_events list_id p n) = n.
Proof.
  unfold count_events.
  induction n as [|n IH]; intros p; simpl; [auto|].
  destruct (IH (S p)) as [H1 H2]. rewrite H1, H2. auto.
Qed.

(** C6. If the first [n] pages of a list answer with [last_page: false] and
    page [n] answers with [last_page: true] or without the flag, so that the
    API reports the last page on request number [N = n + 1], then with fuel
    for [N] requests [iter_tasks] returns: it makes exactly [N] page
    requests, for pages [0 .. N - 1] in order with one delay between two
    requests, and yields exactly the concatenation of the tasks of these
    pages. *)
Theorem iter_tasks_terminates (r : remote) (list_id : string) (n fuel : nat)
  (st : state) :
  (forall i, (i < n)%nat -> has_more r list_id i = true) ->
  is_last r list_id n = true ->
  (S n <= fuel)%nat ->
  iter_tasks fuel r list_id st
  = (Ret (concat (map (page_tasks r list_id) (seq 0 (S n)))),
     with_clock (clock st + Z.of_nat n * RATE_DELAY) st,
     page_events list_id 0 n)
  /\ count_events is_page_request (page_events list_id 0 n) = S n
  /\ List.filter is_page_request (page_events list_id 0 n)
     = map (fun i => EApiGet (GetTaskPage list_id i)) (seq 0 (S n)).
Proof.
  intros Hmore Hlast Hfuel. split; [|split].
  - unfold iter_tasks. apply iter_tasks_from_run; [lia|exact Hmore|exact Hlast].
  - apply count_page_events.
  - generalize 0%nat as p. clear. induction n as [|n IH]; intros p; simpl.
    + reflexivity.
    + f_equal. apply IH.
Qed.

Lemma iter_tasks_terminates_witness :
  iter_tasks 3 three_pages_remote "L" empty_state
  = (Ret ["a"; "b"; "c"; "d"],
     with_clock 1200 empty_state,
     [EApiGet (GetTaskPage "L" 0); ESleep;
      EApiGet (GetTaskPage "L" 1); ESleep;
      EApiGet (GetTaskPage "L" 2)]).
Proof.
  destruct (iter_tasks_terminates three_pages_remote "L" 2 3 empty_state)
    as (H & _).
  - intros i Hi. destruct i as [|[|i]]; [reflexivity|reflexivity|lia].
  - reflexivity.
  - lia.
  - exact H.
Defined.

(** ** Orchestrator: one attachment *)

Lemma is_duplicate_none_run file_key url st :
  is_duplicate file_key url None st
  = (Ret (recorded_intact st file_key url), st, []).
Proof.
  rewrite is_duplicate_run. unfold is_duplicate_answer, recorded_intact.
  destruct (size_on_disk st file_key); reflexivity.
Qed.

Lemma process_attachment_unfold r sname lname att st :
  process_attachment r sname lname att st =
  if String.prefix "image/" (default EmptyString (att_mimetype att)) then
    match py_or (att_title att) (att_filename att) with
    | None =>
        (Raise (TypeError
           "unsupported operand type(s) for /: 'PosixPath' and 'NoneType'"),
         st, [])
    | Some fname =>
        match att_url att with
        | None => (Raise (KeyError "url"), st, [])
        | Some url =>
            if recorded_intact st (dest_path sname lname fname) url
            then (Ret tt, st, [EPrint (SkippingDuplicate fname)])
            else
              (run emit (EPrint (Downloading fname));
               do success <- download r url (dest_path sname lname fname);
               run (if success then add_counters 1 0
                    else run add_counters 0 1;
                         emit (EPrint (FailedToDownload fname)));
               sleep) st
        end
    end
  else (Ret tt, st, []).
Proof.
  unfold process_attachment, process_attachment_on, console_print,
    plain_console. cbv beta iota.
  destruct (String.prefix _ _); [|reflexivity].
  destruct (py_or _ _) as [fname|]; [|reflexivity].
  destruct (att_url att) as [url|]; [|reflexivity].
  rewrite (bind_run _ _ _ _ _ _ (is_duplicate_none_run _ _ _)).
  destruct (recorded_intact st _ url); cbn [negb app].
  - reflexivity.
  - destruct (bind _ _ st) as [[? ?] ?]. reflexivity.
Qed.

(** C10. [is_duplicate] treats an expected size of zero as an absent one: in
    both cases the comparison with the size on disk is skipped and the answer
    is [recorded_intact], which holds exactly when the file exists and the
    metadata has a record for the path with the queried URL and a size equal
    to the size on disk.  The orchestrator calls [is_duplicate] without an
    expected size: an image attachment with a name and a URL is skipped when
    [recorded_intact] holds of its destination and downloaded otherwise. *)
Theorem expected_size_zero_is_none (r : remote) (sname lname : string)
  (att : attachment) (file_key url : string) (st : state) :
  is_duplicate file_key url (Some 0) st = is_duplicate file_key url None st
  /\ is_duplicate file_key url None st
     = (Ret (recorded_intact st file_key url), st, [])
  /\ (recorded_intact st file_key url = true <->
      exists c info,
        files st !! file_key = Some c
        /\ stored_metadata st !! file_key = Some info
        /\ dr_url info = url
        /\ dr_size info = Z.of_nat (length c))
  /\ process_attachment r sname lname att st =
     if String.prefix "image/" (default EmptyString (att_mimetype att)) then
       match py_or (att_title att) (att_filename att) with
       | None =>
           (Raise (TypeError
              "unsupported operand type(s) for /: 'PosixPath' and 'NoneType'"),
            st, [])
       | Some fname =>
           match att_url att with
           | None => (Raise (KeyError "url"), st, [])
           | Some url' =>
               if recorded_intact st (dest_path sname lname fname) url'
               then (Ret tt, st, [EPrint (SkippingDuplicate fname)])
               else
                 (run emit (EPrint (Downloading fname));
                  do success <- download r url' (dest_path sname lname fname);
                  run (if success then add_counters 1 0
                       else run add_counters 0 1;
                            emit (EPrint (FailedToDownload fname)));
                  sleep) st
           end
       end
     else (Ret tt, st, []).
Proof.
  split; [|split; [apply is_duplicate_none_run
                  |split; [apply recorded_intact_iff
                          |apply process_attachment_unfold]]].
  rewrite !is_duplicate_run. reflexivity.
Qed.

(** Whatever the response, [download] makes one request, leaves the
    processed-task ledger and the counters alone, and returns a boolean or
    raises [ValueError]. *)
Lemma download_cases r url dest st :
  exists x st',
    download r url dest st = (x, st', [EHttpGet url])
    /\ processed_tasks_file st' = processed_tasks_file st
    /\ total_imgs st' = total_imgs st
    /\ failed_downloads st' = failed_downloads st
    /\ (x = Ret true \/ x = Ret false \/ exists msg, x = Raise (ValueError msg)).
Proof.
  destruct (http_get r url) as [e|e|cl chunks broken] eqn:Hget.
  - rewrite (download_request_failed r url dest st e) by auto.
    eexists _, _. repeat split; auto.
  - rewrite (download_request_failed r url dest st e) by auto.
    eexists _, _. repeat split; auto.
  - destruct (content_length_ok cl) eqn:Hok.
    + rewrite (download_streamed _ _ _ _ _ _ _ Hget Hok).
      destruct broken; eexists _, _; repeat split; auto.
    + destruct cl as [s|]; [|discriminate].
      rewrite (download_bad_length _ _ _ _ _ _ _ Hget Hok).
      eexists _, _. repeat split; eauto.
Qed.

Lemma process_attachment_cases r sname lname att st :
  let x := process_attachment r sname lname att st in
  attachment_events (result_of x) (events_of x)
  /\ processed_tasks_file (state_of x) = processed_tasks_file st.
Proof.
  intros x. subst x. rewrite process_attachment_unfold.
  destruct (String.prefix _ _); [|split; [constructor|reflexivity]].
  destruct (py_or _ _) as [fname|]; [|split; [constructor|reflexivity]].
  destruct (att_url att) as [url|]; [|split; [constructor|reflexivity]].
  destruct (recorded_intact _ _ _); [split; [constructor|reflexivity]|].
  rewrite (bind_run _ _ st tt st [EPrint (Downloading fname)] eq_refl).
  destruct (download_cases r url (dest_path sname lname fname) st)
    as (y & st' & Hdl & Hp & _ & _ & Hy).
  destruct Hy as [-> | [-> | [msg ->]]].
  - rewrite (bind_run _ _ _ _ _ _ Hdl).
    split; [apply ae_downloaded | exact Hp].
  - rewrite (bind_run _ _ _ _ _ _ Hdl).
    split; [apply ae_failed | exact Hp].
  - rewrite (bind_raise _ _ _ _ _ _ Hdl).
    split; [apply ae_download_raised | exact Hp].
Qed.

(** ** Orchestrator: one task *)

Lemma attachments_loop r sname lname : forall atts st,
  let x := for_each atts (process_attachment r sname lname) st in
  attachments_events (result_of x) (events_of x)
  /\ processed_tasks_file (state_of x) = processed_tasks_file st.
Proof.
  induction atts as [|att atts IH]; intros st x; subst x; simpl.
  - split; [constructor|reflexivity].
  - destruct (process_attachment_cases r sname lname att st) as [Hev Hp].
    destruct (process_attachment r sname lname att st) as [[y st1] tr1] eqn:Hatt.
    unfold result_of, events_of, state_of in Hev, Hp. simpl in Hev, Hp.
    destruct y as [[]|e|].
    + rewrite (bind_run _ _ _ _ _ _ Hatt).
      destruct (IH st1) as [Hev' Hp'].
      destruct (for_each atts _ st1) as [[z st2] tr2].
      unfold result_of, events_of, state_of in *. simpl in *.
      split; [apply aes_next; assumption | congruence].
    + rewrite (bind_raise _ _ _ _ _ _ Hatt).
      split; [apply aes_raised; exact Hev | exact Hp].
    + inversion Hev.
Qed.

Lemma attachments_events_not_diverge x tr :
  attachments_events x tr -> x <> Diverge.
Proof. induction 1; [discriminate|assumption|discriminate]. Qed.

Lemma count_events_app p tr1 tr2 :
  count_events p (tr1 ++ tr2) = (count_events p tr1 + count_events p tr2)%nat.
Proof. unfold count_events. rewrite List.filter_app, length_app. reflexivity. Qed.

Lemma fetched_tasks_app tr1 tr2 :
  fetched_tasks (tr1 ++ tr2) = fetched_tasks tr1 ++ fetched_tasks tr2.
Proof.
  induction tr1 as [|e tr1 IH]; [reflexivity|]. simpl.
  destruct e as [[]| | |]; simpl; rewrite IH; reflexivity.
Qed.

(** One attachment: no task detail is fetched, no task error is printed, and
    a sleep follows each download attempt that returned. *)
Lemma attachment_events_counts x tr :
  attachment_events x tr ->
  fetched_tasks tr = []
  /\ count_events is_task_error tr = 0%nat
  /\ match x with
     | Ret _ => count_events is_sleep tr = count_events is_download_attempt tr
     | _ => count_events is_sleep tr = 0%nat
            /\ (count_events is_download_attempt tr <= 1)%nat
     end.
Proof. destruct 1; repeat split; simpl; auto. Qed.

Lemma attachments_events_counts x tr :
  attachments_events x tr ->
  fetched_tasks tr = []
  /\ count_events is_task_error tr = 0%nat
  /\ match x with
     | Ret _ => count_events is_sleep tr = count_events is_download_attempt tr
     | _ => (count_events is_sleep tr <= count_events is_download_attempt tr
             <= count_events is_sleep tr + 1)%nat
     end.
Proof.
  induction 1 as [|tr1 x tr2 H1 H2 IH|e tr1 H1].
  - repeat split.
  - destruct (attachment_events_counts _ _ H1) as (F1 & E1 & S1).
    destruct IH as (F2 & E2 & S2).
    rewrite fetched_tasks_app, !count_events_app, F1, F2, E1, E2, S1.
    repeat split. destruct x; lia.
  - destruct (attachment_events_counts _ _ H1) as (F1 & E1 & S1 & D1).
    repeat split; auto; lia.
Qed.

Lemma task_attachments_run r sname lname task_id st :
  task_attachments r sname lname task_id st =
  match api_task r task_id with
  | inl err => (Raise (RequestException err), st, [EApiGet (GetTask task_id)])
  | inr tdata =>
      let x := for_each (default [] tdata) (process_attachment r sname lname) st in
      (result_of x, state_of x, EApiGet (GetTask task_id) :: events_of x)
  end.
Proof.
  unfold task_attachments, task_attachments_on, api_get.
  change (process_attachment_on plain_console r sname lname)
    with (process_attachment r sname lname).
  destruct (api_task r task_id) as [err|tdata]; [reflexivity|].
  rewrite (bind_run _ _ st tdata st [EApiGet (GetTask task_id)] eq_refl).
  destruct (for_each _ _ st) as [[x st1] tr1]. reflexivity.
Qed.

Lemma task_attachments_cases r sname lname task_id st :
  exists x st1 tr1,
    task_attachments r sname lname task_id st
    = (x, st1, EApiGet (GetTask task_id) :: tr1)
    /\ processed_tasks_file st1 = processed_tasks_file st
    /\ attachments_events x tr1.
Proof.
  rewrite task_attachments_run.
  destruct (api_task r task_id) as [err|tdata].
  - eexists _, _, []. repeat split. apply aes_raised, ae_malformed.
  - destruct (attachments_loop r sname lname (default [] tdata) st) as [Hev Hp].
    eexists _, _, _. split; [reflexivity|]. split; assumption.
Qed.

Lemma process_task_run r sname lname task_id st x st1 tr1 :
  task_attachments r sname lname task_id st = (x, st1, tr1) ->
  process_task r sname lname task_id st =
  match x with
  | Ret _ => (Ret tt, after_task_completed st1 task_id, tr1 ++ [ESleep])
  | Raise e =>
      (Ret tt, st1, tr1 ++ [EPrint (ErrorProcessingTask task_id (str_exn e))])
  | Diverge => (Diverge, st1, tr1)
  end.
Proof.
  intros Hbody. unfold process_task, process_task_on.
  change (task_attachments_on plain_console r sname lname task_id)
    with (task_attachments r sname lname task_id).
  change (task_handler_on plain_console task_id)
    with (task_handler task_id).
  destruct x as [[]|e|].
  - assert (Htry :
      try_except
        (run task_attachments r sname lname task_id;
         run mark_task_processed task_id; ret true)
        (task_handler task_id) st
      = (Ret true,
         with_processed_tasks_file
           (Holds (elements (stored_processed st1 ∪ {[ task_id ]}))) st1,
         tr1)).
    { unfold try_except. rewrite (bind_run _ _ _ _ _ _ Hbody).
      rewrite (bind_run _ _ _ _ _ _ (mark_task_processed_run _ _)).
      unfold ret. simpl. rewrite app_nil_r. reflexivity. }
    rewrite (bind_run _ _ _ _ _ _ Htry). reflexivity.
  - assert (Htry :
      try_except
        (run task_attachments r sname lname task_id;
         run mark_task_processed task_id; ret true)
        (task_handler task_id) st
      = (Ret false, st1,
         tr1 ++ [EPrint (ErrorProcessingTask task_id (str_exn e))])).
    { unfold try_except. rewrite (bind_raise _ _ _ _ _ _ Hbody). reflexivity. }
    rewrite (bind_run _ _ _ _ _ _ Htry). unfold ret. simpl.
    rewrite app_nil_r. reflexivity.
  - assert (Htry :
      try_except
        (run task_attachments r sname lname task_id;
         run mark_task_processed task_id; ret true)
        (task_handler task_id) st
      = (Diverge, st1, tr1)).
    { unfold try_except. rewrite (bind_diverge _ _ _ _ _ Hbody). reflexivity. }
    rewrite (bind_diverge _ _ _ _ _ Htry). reflexivity.
Qed.

Lemma stored_processed_after_task st1 task_id :
  stored_processed (after_task_completed st1 task_id)
  = stored_processed st1 ∪ {[ task_id ]}.
Proof.
  unfold after_task_completed, stored_processed. simpl.
  apply list_to_set_elements_L.
Qed.

Lemma stored_processed_eq st st' :
  processed_tasks_file st' = processed_tasks_file st ->
  stored_processed st' = stored_processed st.
Proof. unfold stored_processed. intros ->. reflexivity. Qed.

Lemma for_each_cons_run {A} (body : A -> M unit) x xs st st1 tr1 :
  body x st = (Ret tt, st1, tr1) ->
  for_each (x :: xs) body st
  = (let '(y, st2, tr2) := for_each xs body st1 in (y, st2, tr1 ++ tr2)).
Proof. intros H. simpl. rewrite (bind_run _ _ _ _ _ _ H). reflexivity. Qed.

(** C4, evaluated on the code.  The first task carries an image whose
    title is [[/x].png].  The line that announces its download does not
    render: rich raises [MarkupError] inside the [try] block.  The handler
    catches it and prints the error line, which quotes the message of the
    exception and so holds the same closing tag: rich raises again, this
    time in the handler, and the exception leaves the task.  The run aborts
    with it; the second task is never fetched. *)
Theorem task_error_line_aborts_run :
  task_attachments_on bracket_console bracket_remote "s" "l" "t1" empty_state
  = (Raise (MarkupError
              "closing tag '[/x]' at position 20 doesn't match any open tag"),
     empty_state, [EApiGet (GetTask "t1")])
  /\ process_task_on bracket_console bracket_remote "s" "l" "t1" empty_state
     = (Raise (MarkupError
                 "closing tag '[/x]' at position 46 doesn't match any open tag"),
        empty_state, [EApiGet (GetTask "t1")])
  /\ main_on bracket_console 1 bracket_remote empty_state
     = (Raise (MarkupError
                 "closing tag '[/x]' at position 46 doesn't match any open tag"),
        empty_state,
        [EPrint (Header 0); EApiGet GetSpaces; EPrint (FoundSpaces 1);
         EApiGet (GetLists "sp1"); EApiGet (GetFolders "sp1");
         EApiGet (GetTaskPage "l1" 0); EPrint (FoundTasks 2 2);
         EApiGet (GetTask "t1")]).
Proof. repeat split; vm_compute; reflexivity. Qed.




(** ** Orchestrator: the whole run *)

Lemma bind_assoc {A B C} (m : M A) (f : A -> M B) (g : B -> M C) st :
  bind (bind m f) g st = bind m (fun a => bind (f a) g) st.
Proof.
  unfold bind. destruct (m st) as [[[a|e|] s1] t1]; try reflexivity.
  destruct (f a s1) as [[[b|e|] s2] t2]; try reflexivity.
  destruct (g b s2) as [[y s3] t3]. rewrite app_assoc. reflexivity.
Qed.

Lemma bind_ext {A B} (m : M A) (f g : A -> M B) st :
  (forall a s, f a s = g a s) -> bind m f st = bind m g st.
Proof.
  intros H. unfold bind. destruct (m st) as [[[a|e|] s1] t1]; try reflexivity.
  rewrite H. reflexivity.
Qed.

Lemma bind_cong {A B} (m m' : M A) (f g : A -> M B) st :
  m st = m' st -> (forall a s, f a s = g a s) -> bind m f st = bind m' g st.
Proof.
  intros Hm H. unfold bind. rewrite Hm.
  destruct (m' st) as [[[a|e|] s1] t1]; try reflexivity.
  rewrite H. reflexivity.
Qed.

Lemma for_each_ext {A} (xs : list A) (f g : A -> M unit) st :
  (forall a s, f a s = g a s) -> for_each xs f st = for_each xs g st.
Proof.
  intros H. revert st. induction xs as [|x xs IH]; intros st; [reflexivity|].
  simpl. unfold bind. rewrite H.
  destruct (g x st) as [[[a|e|] s1] t1]; try reflexivity.
  rewrite IH. reflexivity.
Qed.

(** *** The console *)

(** On a console that renders every line the script prints, the script is
    [main]: what is proved of [main], [process_task] and the like holds on
    every such console. *)
Section Renders.
Variable rich : string -> option string.
Hypothesis renders : forall line, rich line = None.

Lemma console_print_renders line m st :
  console_print rich line m st = emit (EPrint m) st.
Proof. unfold console_print. rewrite renders. reflexivity. Qed.

Lemma process_attachment_on_renders r sname lname att st :
  process_attachment_on rich r sname lname att st
  = process_attachment r sname lname att st.
Proof.
  unfold process_attachment, process_attachment_on.
  destruct (String.prefix _ _); [|reflexivity].
  destruct (py_or _ _) as [fname|]; [|reflexivity].
  destruct (att_url att) as [url|]; [|reflexivity].
  apply bind_ext. intros dup s.
  destruct dup; simpl; [apply console_print_renders|].
  apply bind_cong; [apply console_print_renders|]. intros _ s1.
  apply bind_ext. intros success s2.
  apply bind_cong; [|reflexivity].
  destruct success; [reflexivity|].
  apply bind_ext. intros _ s3. apply console_print_renders.
Qed.

Lemma task_attachments_on_renders r sname lname task_id st :
  task_attachments_on rich r sname lname task_id st
  = task_attachments r sname lname task_id st.
Proof.
  unfold task_attachments, task_attachments_on.
  apply bind_ext. intros a s. apply for_each_ext.
  intros. apply process_attachment_on_renders.
Qed.

Lemma process_task_on_renders r sname lname task_id st :
  process_task_on rich r sname lname task_id st
  = process_task r sname lname task_id st.
Proof.
  unfold process_task, process_task_on.
  apply bind_cong; [|reflexivity].
  unfold try_except.
  rewrite (bind_cong _ (task_attachments_on plain_console r sname lname task_id)
             _ _ st (task_attachments_on_renders r sname lname task_id st)
             (fun a s => eq_refl)).
  destruct (bind _ _ st) as [[[a|e|] s1] t1]; try reflexivity.
  unfold task_handler_on.
  rewrite (bind_cong _ (console_print plain_console
                          (task_error_line task_id (str_exn e))
                          (ErrorProcessingTask task_id (str_exn e)))
             _ _ s1 (console_print_renders _ _ s1) (fun a s => eq_refl)).
  reflexivity.
Qed.

Lemma process_list_on_renders r processed_tasks entry st :
  process_list_on rich r processed_tasks entry st
  = process_list r processed_tasks entry st.
Proof.
  unfold process_list, process_list_on.
  destruct entry as [[[sid sname] l] tasks].
  destruct (remaining_list_tasks processed_tasks tasks); [reflexivity|].
  apply for_each_ext. intros. apply process_task_on_renders.
Qed.

Lemma main_on_renders fuel r st :
  main_on rich fuel r st = main fuel r st.
Proof.
  unfold main, main_on.
  repeat (apply bind_ext; intros; try match goal with
                                      | x : counting_vars |- _ =>
                                          destruct x as [[? ?] ?]
                                      | x : (nat * nat * _)%type |- _ =>
                                          destruct x as [[? ?] ?]
                                      end).
  unfold bind at 1 3. rewrite (for_each_ext _ _ (process_list r a))
    by (intros; apply process_list_on_renders).
  reflexivity.
Qed.

End Renders.

Lemma main_passes fuel r st :
  main fuel r st =
  (do processed_tasks <- load_processed_tasks;
   run emit (EPrint (Header (size processed_tasks)));
   do counted <- counting_pass fuel r processed_tasks;
   processing_pass r processed_tasks counted) st.
Proof.
  unfold main, main_on. apply bind_ext. intros P s. apply bind_ext. intros _ s'.
  unfold counting_pass. rewrite bind_assoc. apply bind_ext. intros spaces s''.
  rewrite bind_assoc. apply bind_ext. intros _ s3.
  apply bind_ext. intros [[t rm] ls] s4. reflexivity.
Qed.

(** *** The counting pass is a walker *)

Lemma with_clock_with_clock st a b :
  with_clock (clock (with_clock (clock st + a) st) + b)
             (with_clock (clock st + a) st)
  = with_clock (clock st + (a + b)) st.
Proof. unfold with_clock. simpl. f_equal. lia. Qed.

Lemma walker_ret {A} (a : A) : walker (ret a).
Proof.
  exists (Ret a), 0, []. repeat split. intros st.
  rewrite with_clock_same. reflexivity.
Qed.

Lemma walker_raise {A} e : walker (@raise A e).
Proof.
  exists (Raise e), 0, []. repeat split. intros st.
  rewrite with_clock_same. reflexivity.
Qed.

Lemma walker_diverge {A} : walker (@diverge A).
Proof.
  exists Diverge, 0, []. repeat split. intros st.
  rewrite with_clock_same. reflexivity.
Qed.

Lemma walker_sleep : walker sleep.
Proof. exists (Ret tt), RATE_DELAY, [ESleep]. repeat split. Qed.

Lemma walker_print m : is_task_error (EPrint m) = false -> walker (emit (EPrint m)).
Proof.
  intros H. exists (Ret tt), 0, [EPrint m]. repeat split.
  - unfold count_events. cbn [List.filter]. rewrite H. reflexivity.
  - intros st. rewrite with_clock_same. reflexivity.
Qed.

Lemma walker_bind {A B} (m : M A) (k : A -> M B) :
  walker m -> (forall a, walker (k a)) -> walker (bind m k).
Proof.
  intros (x & d & tr & F & E & D & Hm) Hk.
  destruct x as [a|e|].
  - destruct (Hk a) as (y & d' & tr' & F' & E' & D' & Hk').
    exists y, (d + d'), (tr ++ tr').
    rewrite fetched_tasks_app, !count_events_app, F, F', E, E', D, D'.
    repeat split. intros st. rewrite (bind_run _ _ _ _ _ _ (Hm st)).
    rewrite Hk', with_clock_with_clock. reflexivity.
  - exists (Raise e), d, tr. repeat split; auto. intros st.
    apply bind_raise, Hm.
  - exists Diverge, d, tr. repeat split; auto. intros st.
    apply bind_diverge, Hm.
Qed.

Lemma walker_api_get {A} req (response : string + A) :
  fetched_tasks [EApiGet req] = [] -> walker (api_get req response).
Proof.
  intros Hreq. unfold api_get.
  destruct response as [err|data].
  - exists (Raise (RequestException err)), 0, [EApiGet req]. repeat split; auto.
    intros st. rewrite with_clock_same. reflexivity.
  - exists (Ret data), 0, [EApiGet req]. repeat split; auto.
    intros st. rewrite with_clock_same. reflexivity.
Qed.

Lemma walker_for_fold {A B} (body : B -> A -> M B) :
  (forall acc x, walker (body acc x)) ->
  forall xs acc, walker (for_fold xs acc body).
Proof.
  intros Hbody. induction xs as [|x xs IH]; intros acc; simpl.
  - apply walker_ret.
  - apply walker_bind; [apply Hbody | intros acc'; apply IH].
Qed.

Create HintDb walker.
#[local] Hint Resolve walker_ret walker_raise walker_diverge walker_sleep
  walker_for_fold : walker.
#[local] Hint Extern 2 (walker (api_get _ _)) =>
  apply walker_api_get; reflexivity : walker.
#[local] Hint Extern 2 (walker (emit (EPrint _))) =>
  apply walker_print; reflexivity : walker.

(** Peel the binds of a walker and close the leaves with the hints. *)
Ltac walk :=
  repeat (apply walker_bind; [auto with walker | intros ?]);
  auto with walker.

Section Walker.
Variable r : remote.

Lemma walker_iter_tasks_from list_id : forall fuel page,
  walker (iter_tasks_from fuel r list_id page).
Proof.
  induction fuel as [|fuel IH]; intros page; simpl; [walk|].
  apply walker_bind; [auto with walker|].
  intros data. destruct (default true (pg_last_page data)); [walk|].
  apply walker_bind; [auto with walker|]. intros _.
  apply walker_bind; [apply IH|]. intros rest. walk.
Qed.

Lemma walker_get_spaces : walker (get_spaces r).
Proof.
  unfold get_spaces. apply walker_bind; [auto with walker|].
  intros [data|]; walk.
Qed.

Lemma walker_get_folder_lists space_id :
  walker (get_folder_lists r space_id).
Proof. unfold get_folder_lists. walk. Qed.

Variable fuel : nat.
Variable P : gset string.

Lemma walker_count_list sid sname acc l :
  walker (count_list fuel r P sid sname acc l).
Proof.
  unfold count_list. destruct acc as [[t rm] ls].
  apply walker_bind; [apply walker_iter_tasks_from|]. intros tasks. walk.
Qed.

Lemma walker_count_space acc space :
  walker (count_space fuel r P acc space).
Proof.
  unfold count_space. destruct space as [sid sname].
  apply walker_bind; [apply walker_get_folder_lists|]. intros lists.
  apply walker_for_fold. intros acc' l. apply walker_count_list.
Qed.

Lemma walker_counting_pass : walker (counting_pass fuel r P).
Proof.
  unfold counting_pass. apply walker_bind; [apply walker_get_spaces|].
  intros spaces. apply walker_bind; [auto with walker|].
  intros _. apply walker_for_fold. intros acc space.
  apply walker_count_space.
Qed.
End Walker.

(** *** The lists found do not depend on the state or on the processed set *)







(** *** The processing pass *)

Lemma process_task_cases r sname lname task_id st :
  exists st' tr,
    process_task r sname lname task_id st = (Ret tt, st', tr)
    /\ fetched_tasks tr = [task_id]
    /\ stored_processed st ⊆ stored_processed st'
    /\ (count_events is_task_error tr = 0%nat ->
        task_id ∈ stored_processed st').
Proof.
  destruct (task_attachments_cases r sname lname task_id st)
    as (x & st1 & tr1 & Hbody & Hp & Hev).
  rewrite (process_task_run _ _ _ _ _ _ _ _ Hbody).
  destruct (attachments_events_counts _ _ Hev) as (F & E & _).
  apply stored_processed_eq in Hp.
  destruct x as [[]|e|].
  - eexists _, _. split; [reflexivity|].
    rewrite fetched_tasks_app, stored_processed_after_task, Hp. simpl.
    rewrite F. repeat split; set_solver.
  - eexists _, _. split; [reflexivity|].
    rewrite fetched_tasks_app, count_events_app, Hp. simpl. rewrite F.
    repeat split; [set_solver|].
    change (EApiGet (GetTask task_id) :: tr1)
      with ([EApiGet (GetTask task_id)] ++ tr1).
    rewrite count_events_app, E. unfold count_events. simpl. lia.
  - exfalso. exact (attachments_events_not_diverge _ _ Hev eq_refl).
Qed.

Lemma process_tasks_loop r sname lname : forall tasks st,
  exists st' tr,
    for_each tasks (process_task r sname lname) st = (Ret tt, st', tr)
    /\ fetched_tasks tr = tasks
    /\ stored_processed st ⊆ stored_processed st'
    /\ (count_events is_task_error tr = 0%nat ->
        forall t, t ∈ tasks -> t ∈ stored_processed st').
Proof.
  induction tasks as [|task tasks IH]; intros st.
  - exists st, []. repeat split; [set_solver|]. intros _ t Ht. set_solver.
  - destruct (process_task_cases r sname lname task st)
      as (st1 & tr1 & Hrun & F1 & S1 & E1).
    destruct (IH st1) as (st2 & tr2 & Hrest & F2 & S2 & E2).
    exists st2, (tr1 ++ tr2).
    rewrite (for_each_cons_run _ _ _ _ _ _ Hrun), Hrest.
    rewrite fetched_tasks_app, count_events_app, F1, F2.
    repeat split; [set_solver|].
    intros Herr t Ht. apply elem_of_cons in Ht as [->|Ht].
    + apply S2, E1. lia.
    + apply E2; [lia|exact Ht].
Qed.

Lemma process_list_cases r P entry st :
  exists st' tr,
    process_list r P entry st = (Ret tt, st', tr)
    /\ fetched_tasks tr = remaining_list_tasks P entry.2
    /\ stored_processed st ⊆ stored_processed st'
    /\ (count_events is_task_error tr = 0%nat ->
        forall t, t ∈ remaining_list_tasks P entry.2 ->
                  t ∈ stored_processed st').
Proof.
  destruct entry as [[[sid sname] l] tasks]. simpl.
  destruct (process_tasks_loop r sname (lst_name l)
              (remaining_list_tasks P tasks) st) as (st' & tr & H).
  exists st', tr.
  destruct (remaining_list_tasks P tasks); exact H.
Qed.

Lemma processing_loop r P : forall all_lists st,
  exists st' tr,
    for_each all_lists (process_list r P) st = (Ret tt, st', tr)
    /\ fetched_tasks tr = remaining_tasks_of P all_lists
    /\ stored_processed st ⊆ stored_processed st'
    /\ (count_events is_task_error tr = 0%nat ->
        forall t, t ∈ remaining_tasks_of P all_lists ->
                  t ∈ stored_processed st').
Proof.
  induction all_lists as [|entry all_lists IH]; intros st.
  - exists st, []. repeat split; [set_solver|]. intros _ t Ht.
    unfold remaining_tasks_of in Ht. simpl in Ht. set_solver.
  - destruct (process_list_cases r P entry st)
      as (st1 & tr1 & Hrun & F1 & S1 & E1).
    destruct (IH st1) as (st2 & tr2 & Hrest & F2 & S2 & E2).
    exists st2, (tr1 ++ tr2).
    rewrite (for_each_cons_run _ _ _ _ _ _ Hrun), Hrest.
    rewrite fetched_tasks_app, count_events_app, F1, F2.
    repeat split; [set_solver|].
    intros Herr t Ht. unfold remaining_tasks_of in Ht. simpl in Ht.
    apply elem_of_app in Ht as [Ht|Ht].
    + apply S2, E1; [lia|exact Ht].
    + apply E2; [lia|exact Ht].
Qed.


(** *** [main], pass by pass *)

Lemma main_run fuel r st :
  exists xc k trc,
    fetched_tasks trc = []
    /\ count_events is_task_error trc = 0%nat
    /\ count_events is_download_attempt trc = 0%nat
    /\ (forall s, counting_pass fuel r (stored_processed st) s
                  = (xc, with_clock (clock s + k) s, trc))
    /\ match xc with
       | Ret (total_tasks, remaining_tasks, all_lists) =>
           exists st2 tr2,
             for_each all_lists (process_list r (stored_processed st))
                      (with_counters 0 0 (with_clock (clock st + k) st))
             = (Ret tt, st2, tr2)
             /\ main fuel r st
                = (Ret tt, st2,
                   EPrint (Header (size (stored_processed st))) :: trc
                   ++ EPrint (FoundTasks total_tasks remaining_tasks) :: tr2
                   ++ [EPrint (Complete (total_imgs st2) (failed_downloads st2))])
       | Raise e =>
           main fuel r st
           = (Raise e, with_clock (clock st + k) st,
              EPrint (Header (size (stored_processed st))) :: trc)
       | Diverge =>
           main fuel r st
           = (Diverge, with_clock (clock st + k) st,
              EPrint (Header (size (stored_processed st))) :: trc)
       end.
Proof.
  destruct (walker_counting_pass r fuel (stored_processed st))
    as (xc & k & trc & F & E & D & Hcount).
  exists xc, k, trc. repeat (split; [assumption|]).
  rewrite main_passes.
  rewrite (bind_run _ _ _ _ _ _ (load_processed_tasks_run st)).
  rewrite (bind_run _ _ st tt st
             [EPrint (Header (size (stored_processed st)))] eq_refl).
  destruct xc as [[[t rm] ls]|e|].
  - rewrite (bind_run _ _ _ _ _ _ (Hcount st)).
    destruct (processing_loop r (stored_processed st) ls
                (with_counters 0 0 (with_clock (clock st + k) st)))
      as (st2 & tr2 & Hloop & _).
    exists st2, tr2. split; [exact Hloop|].
    unfold processing_pass.
    rewrite (bind_run _ _ _ tt _ [EPrint (FoundTasks t rm)] eq_refl).
    rewrite (bind_run (modify (with_counters 0 0)) _ _ tt
               (with_counters 0 0 (with_clock (clock st + k) st)) [] eq_refl).
    rewrite (bind_run _ _ _ _ _ _ Hloop).
    reflexivity.
  - rewrite (bind_raise _ _ _ _ _ _ (Hcount st)). reflexivity.
  - rewrite (bind_diverge _ _ _ _ _ (Hcount st)). reflexivity.
Qed.



Lemma fetched_tasks_main_events h trc m tr2 c :
  fetched_tasks trc = [] ->
  fetched_tasks (EPrint h :: trc ++ EPrint m :: tr2 ++ [EPrint c])
  = fetched_tasks tr2.
Proof.
  intros F. simpl. rewrite fetched_tasks_app, F. simpl.
  rewrite fetched_tasks_app. simpl. apply app_nil_r.
Qed.









(** * Further properties of the downloader *)

(** ** What a download leaves behind *)








(** ** Re-evaluating an attachment *)



(** ** The failure counter and the failed-download log *)










(** ** Where a run can abort, and what it announces *)

Lemma for_fold_invariant {A B} (I : B -> Prop) (body : B -> A -> M B) :
  (forall acc x st acc' st' tr,
     I acc -> body acc x st = (Ret acc', st', tr) -> I acc') ->
  forall xs acc st acc' st' tr,
    I acc -> for_fold xs acc body st = (Ret acc', st', tr) -> I acc'.
Proof.
  intros Hbody. induction xs as [|x xs IH]; intros acc st acc' st' tr HI Hrun.
  - inversion Hrun; subst. exact HI.
  - simpl in Hrun. unfold bind in Hrun.
    destruct (body acc x st) as [[[acc1|e|] st1] tr1] eqn:Hx; try discriminate.
    destruct (for_fold xs acc1 body st1) as [[y st2] tr2] eqn:Hxs.
    inversion Hrun; subst y st2 tr.
    exact (IH _ _ _ _ _ (Hbody _ _ _ _ _ _ HI Hx) Hxs).
Qed.

Lemma remaining_tasks_of_snoc P all_lists entry :
  remaining_tasks_of P (all_lists ++ [entry])
  = remaining_tasks_of P all_lists ++ remaining_list_tasks P entry.2.
Proof.
  unfold remaining_tasks_of. rewrite map_app, concat_app. simpl.
  rewrite app_nil_r. reflexivity.
Qed.

Lemma count_list_counted_ok fuel r P sid sname acc l st acc' st' tr :
  counted_ok P acc ->
  count_list fuel r P sid sname acc l st = (Ret acc', st', tr) ->
  counted_ok P acc'.
Proof.
  destruct acc as [[t rm] ls]. intros [Ht Hrm] Hrun.
  unfold count_list, bind in Hrun.
  destruct (iter_tasks fuel r (lst_id l) st) as [[[tasks|e|] s1] t1];
    try discriminate.
  unfold ret in Hrun. inversion Hrun; subst acc' st' tr. simpl.
  rewrite map_app, concat_app, remaining_tasks_of_snoc, !length_app. simpl.
  rewrite app_nil_r. split; congruence.
Qed.

Lemma count_space_counted_ok fuel r P acc space st acc' st' tr :
  counted_ok P acc ->
  count_space fuel r P acc space st = (Ret acc', st', tr) ->
  counted_ok P acc'.
Proof.
  destruct space as [sid sname]. intros HI Hrun.
  unfold count_space, bind in Hrun.
  destruct (get_folder_lists r sid st) as [[[lists|e|] s1] t1];
    try discriminate.
  destruct (for_fold lists acc _ s1) as [[y s2] t2] eqn:Hfold.
  inversion Hrun; subst y st' tr.
  refine (for_fold_invariant (counted_ok P) _ _ lists acc s1 acc' s2 t2 HI Hfold).
  intros a x s a' s' t'. apply count_list_counted_ok.
Qed.

Lemma counting_pass_counted_ok fuel r P st c st' tr :
  counting_pass fuel r P st = (Ret c, st', tr) -> counted_ok P c.
Proof.
  intros Hrun. unfold counting_pass, bind in Hrun.
  destruct (get_spaces r st) as [[[spaces|e|] s1] t1]; try discriminate.
  simpl in Hrun.
  destruct (for_fold spaces _ _ s1) as [[y s2] t2] eqn:Hfold.
  inversion Hrun; subst y st' tr.
  refine (for_fold_invariant (counted_ok P) _ _ spaces _ s1 c s2 t2 _ Hfold).
  - intros a x s a' s' t'. apply count_space_counted_ok.
  - split; reflexivity.
Qed.

Lemma length_remaining_tasks_of P all_lists :
  (length (remaining_tasks_of P all_lists)
   <= length (concat (map snd all_lists)))%nat
  /\ (P = ∅ -> remaining_tasks_of P all_lists = concat (map snd all_lists)).
Proof.
  unfold remaining_tasks_of.
  induction all_lists as [|entry ls [IH1 IH2]]; simpl; [auto|].
  rewrite !length_app. split.
  - apply Nat.add_le_mono; [apply length_filter | exact IH1].
  - intros HP. rewrite (IH2 HP). f_equal. unfold remaining_list_tasks.
    subst P. clear. induction entry.2 as [|t ts IH]; [reflexivity|].
    rewrite filter_cons_True by set_solver. f_equal. exact IH.
Qed.

(** X7. When a run returns, the number of remaining tasks it announced after
    counting is the number of task details it then fetched; it is at most the
    announced total, and equal to it when no task was marked processed
    before the run. *)
Theorem announced_remaining_is_fetched (fuel : nat) (r : remote)
  (st st' : state) (tr : list event) :
  main fuel r st = (Ret tt, st', tr) ->
  exists total remaining,
    EPrint (FoundTasks total remaining) ∈ tr
    /\ remaining = length (fetched_tasks tr)
    /\ (remaining <= total)%nat
    /\ (stored_processed st = ∅ -> remaining = total).
Proof.
  intros Hrun.
  destruct (main_run fuel r st) as (xc & k & trc & F & E & D & Hcount & Hmain).
  destruct xc as [[[t rm] ls]|e|];
    [|rewrite Hmain in Hrun; discriminate|rewrite Hmain in Hrun; discriminate].
  destruct Hmain as (st2 & tr2 & Hloop & Hmain).
  rewrite Hmain in Hrun. inversion Hrun; subst st2 tr; clear Hrun.
  destruct (counting_pass_counted_ok _ _ _ _ _ _ _ (Hcount st)) as [Ht Hrm].
  destruct (processing_loop r (stored_processed st) ls
              (with_counters 0 0 (with_clock (clock st + k) st)))
    as (st2' & tr2' & Hloop' & F2 & _).
  rewrite Hloop in Hloop'. inversion Hloop'; subst st2' tr2'; clear Hloop'.
  destruct (length_remaining_tasks_of (stored_processed st) ls) as [Hle Heq].
  exists t, rm. split; [|split; [|split]].
  - apply elem_of_cons. right. apply elem_of_app. right. left.
  - rewrite fetched_tasks_main_events by exact F. rewrite F2. exact Hrm.
  - lia.
  - intros HP. rewrite Hrm, Ht, (Heq HP). reflexivity.
Qed.

Lemma announced_remaining_is_fetched_witness :
  EPrint (FoundTasks 1 1) ∈ events_of (main 1 refused_image_remote empty_state)
  /\ fetched_tasks (events_of (main 1 refused_image_remote empty_state))
     = ["t1"].
Proof.
  destruct (announced_remaining_is_fetched 1 refused_image_remote empty_state
              (state_of (main 1 refused_image_remote empty_state))
              (events_of (main 1 refused_image_remote empty_state)) eq_refl)
    as (total & remaining & Hin & Hrem & _ & Hall).
  specialize (Hall eq_refl). subst total.
  assert (remaining = 1%nat) as -> by (rewrite Hrem; reflexivity).
  split; [exact Hin | reflexivity].
Defined.

(** ** Tasks without work *)

Lemma non_images_are_ignored r sname lname : forall atts st,
  forallb (fun att =>
             negb (String.prefix "image/"
                     (default EmptyString (att_mimetype att)))) atts = true ->
  for_each atts (process_attachment r sname lname) st = (Ret tt, st, []).
Proof.
  induction atts as [|att atts IH]; intros st Hall; [reflexivity|].
  simpl in Hall. apply andb_true_iff in Hall as [Hatt Hrest].
  apply negb_true_iff in Hatt.
  assert (H1 : process_attachment r sname lname att st = (Ret tt, st, [])).
  { rewrite process_attachment_unfold, Hatt. reflexivity. }
  rewrite (for_each_cons_run _ _ _ _ _ _ H1), (IH st Hrest). reflexivity.
Qed.

(** X12. A task whose detail request fails is reported and left exactly as
    it was: nothing on disk changes and it is not marked processed.  A task
    whose detail carries no image attachment (no "attachments" key, an empty
    list, or only attachments of other types, whatever else they lack) is
    marked processed after one request and one delay, with no download and
    no change to files, metadata or the failed-download log. *)
Theorem task_without_images (r : remote) (sname lname task_id : string)
  (st : state) :
  match api_task r task_id with
  | inl err =>
      process_task r sname lname task_id st
      = (Ret tt, st,
         [EApiGet (GetTask task_id);
          EPrint (ErrorProcessingTask task_id err)])
  | inr tdata =>
      forallb (fun att =>
                 negb (String.prefix "image/"
                         (default EmptyString (att_mimetype att))))
              (default [] tdata) = true ->
      process_task r sname lname task_id st
      = (Ret tt, after_task_completed st task_id,
         [EApiGet (GetTask task_id); ESleep])
  end.
Proof.
  pose proof (task_attachments_run r sname lname task_id st) as Hbody.
  destruct (api_task r task_id) as [err|tdata].
  - rewrite (process_task_run _ _ _ _ _ _ _ _ Hbody). reflexivity.
  - intros Hall.
    rewrite (non_images_are_ignored r sname lname _ st Hall) in Hbody.
    rewrite (process_task_run _ _ _ _ _ _ _ _ Hbody). reflexivity.
Qed.

(** ** The order of the task detail requests *)

(** X13. When a run returns, the task details it fetched are, in listing
    order and with their multiplicity, the listed tasks that were not in the
    processed-task set when the run started.  The set is read once: a task
    listed twice is fetched twice in the run that first marks it. *)
Theorem fetches_follow_the_listing (fuel : nat) (r : remote) (st st' : state)
  (tr : list event) :
  main fuel r st = (Ret tt, st', tr) ->
  exists all_lists,
    lists_of (result_of (counting_pass fuel r (stored_processed st) st))
    = Ret all_lists
    /\ fetched_tasks tr
       = filter (fun t => t ∉ stored_processed st) (concat (map snd all_lists)).
Proof.
  intros Hrun.
  destruct (main_run fuel r st) as (xc & k & trc & F & E & D & Hcount & Hmain).
  destruct xc as [[[t rm] ls]|e|];
    [|rewrite Hmain in Hrun; discriminate|rewrite Hmain in Hrun; discriminate].
  destruct Hmain as (st2 & tr2 & Hloop & Hmain).
  rewrite Hmain in Hrun. inversion Hrun; subst st2 tr; clear Hrun.
  destruct (processing_loop r (stored_processed st) ls
              (with_counters 0 0 (with_clock (clock st + k) st)))
    as (st2' & tr2' & Hloop' & F2 & _).
  rewrite Hloop in Hloop'. inversion Hloop'; subst st2' tr2'; clear Hloop'.
  exists ls. rewrite Hcount. split; [reflexivity|].
  rewrite fetched_tasks_main_events by exact F. rewrite F2.
  unfold remaining_tasks_of, remaining_list_tasks. clear.
  induction ls as [|entry ls IH]; [reflexivity|].
  simpl. rewrite filter_app, IH. reflexivity.
Qed.

Lemma fetches_follow_the_listing_witness :
  fetched_tasks (events_of (main 1 twice_listed_remote empty_state))
  = ["t1"; "t1"].
Proof.
  destruct (fetches_follow_the_listing 1 twice_listed_remote empty_state
              (state_of (main 1 twice_listed_remote empty_state))
              (events_of (main 1 twice_listed_remote empty_state)) eq_refl)
    as (ls & Hls & Hf).
  rewrite Hf. vm_compute in Hls. inversion Hls; subst ls. reflexivity.
Defined.

(** ** Pagination that does not end well *)

Lemma iter_tasks_from_endless r list_id : forall fuel p st,
  (forall i, has_more r list_id i = true) ->
  result_of (iter_tasks_from fuel r list_id p st) = Diverge
  /\ count_events is_page_request
       (events_of (iter_tasks_from fuel r list_id p st)) = fuel.
Proof.
  induction fuel as [|fuel IH]; intros p st Hmore; [split; reflexivity|].
  simpl. pose proof (Hmore p) as Hp. unfold has_more in Hp. unfold api_get.
  destruct (api_task_page r list_id p) as [e|pg]; [discriminate|].
  destruct (pg_last_page pg) as [[]|] eqn:Hlp; try discriminate.
  rewrite (bind_run _ _ st pg st [EApiGet (GetTaskPage list_id p)])
    by reflexivity.
  rewrite Hlp. cbn [from_option id].
  rewrite (bind_run _ _ _ _ _ _ (sleep_run st)).
  destruct (IH (S p) (with_clock (clock st + RATE_DELAY) st) Hmore) as [Hr Hc].
  destruct (iter_tasks_from fuel r list_id (S p) _) as [[x s1] t1] eqn:Hrun.
  unfold result_of, events_of in *. simpl in Hr, Hc. subst x.
  rewrite (bind_diverge _ _ _ _ _ Hrun). simpl. split; [reflexivity|].
  change (EApiGet (GetTaskPage list_id p) :: ESleep :: t1)
    with ([EApiGet (GetTaskPage list_id p); ESleep] ++ t1).
  rewrite count_events_app, Hc. reflexivity.
Qed.

(** X10. If every page of a list answers with [last_page: false],
    [iter_tasks] never returns: whatever bound is put on the number of page
    requests, the loop has made that many requests and is still running. *)
Theorem iter_tasks_never_ends (r : remote) (list_id : string) (fuel : nat)
  (st : state) :
  (forall i, has_more r list_id i = true) ->
  result_of (iter_tasks fuel r list_id st) = Diverge
  /\ count_events is_page_request (events_of (iter_tasks fuel r list_id st))
     = fuel.
Proof. intros Hmore. apply iter_tasks_from_endless. exact Hmore. Qed.

Lemma iter_tasks_never_ends_witness :
  result_of (iter_tasks 5 endless_remote "l1" empty_state) = Diverge
  /\ count_events is_page_request
       (events_of (iter_tasks 5 endless_remote "l1" empty_state)) = 5%nat.
Proof.
  apply (iter_tasks_never_ends endless_remote "l1" 5 empty_state).
  intros i. reflexivity.
Defined.

Lemma iter_tasks_from_page_error r list_id err : forall n fuel p st,
  (n < fuel)%nat ->
  (forall i, (i < n)%nat -> has_more r list_id (p + i) = true) ->
  api_task_page r list_id (p + n) = inl err ->
  iter_tasks_from fuel r list_id p st
  = (Raise (RequestException err),
     with_clock (clock st + Z.of_nat n * RATE_DELAY) st,
     page_events list_id p n).
Proof.
  induction n as [|n IH]; intros fuel p st Hfuel Hmore Herr.
  - destruct fuel as [|fuel]; [lia|]. simpl.
    rewrite Nat.add_0_r in Herr. unfold api_get. rewrite Herr.
    unfold_prog. simpl. rewrite with_clock_same. reflexivity.
  - destruct fuel as [|fuel]; [lia|]. simpl.
    pose proof (Hmore 0%nat ltac:(lia)) as H0. rewrite Nat.add_0_r in H0.
    unfold has_more in H0. unfold api_get.
    destruct (api_task_page r list_id p) as [e|pg] eqn:Hpg; [discriminate|].
    destruct (pg_last_page pg) as [[]|] eqn:Hlp; try discriminate.
    rewrite (bind_run _ _ st pg st [EApiGet (GetTaskPage list_id p)])
      by reflexivity.
    rewrite Hlp. cbn [from_option id].
    rewrite (bind_run _ _ _ _ _ _ (sleep_run st)).
    rewrite (bind_raise _ _ _ _ _ _
               (IH fuel (S p) _ ltac:(lia)
                  ltac:(intros i Hi; replace (S p + i)%nat with (p + S i)%nat
                          by lia; apply Hmore; lia)
                  ltac:(replace (S p + n)%nat with (p + S n)%nat by lia;
                        exact Herr))).
    simpl. f_equal. f_equal. unfold with_clock. simpl. f_equal. lia.
Qed.

(** X11. If the first [n] pages of a list answer with [last_page: false] and
    the request for page [n] fails, [iter_tasks] raises the request error
    after [n + 1] requests and [n] delays: the tasks of the pages already
    read are not returned. *)
Theorem iter_tasks_page_error (r : remote) (list_id err : string)
  (n fuel : nat) (st : state) :
  (forall i, (i < n)%nat -> has_more r list_id i = true) ->
  api_task_page r list_id n = inl err ->
  (S n <= fuel)%nat ->
  iter_tasks fuel r list_id st
  = (Raise (RequestException err),
     with_clock (clock st + Z.of_nat n * RATE_DELAY) st,
     page_events list_id 0 n)
  /\ count_events is_page_request (page_events list_id 0 n) = S n
  /\ count_events is_sleep (page_events list_id 0 n) = n.
Proof.
  intros Hmore Herr Hfuel. split; [|apply count_page_events].
  unfold iter_tasks. apply iter_tasks_from_page_error; [lia|exact Hmore|exact Herr].
Qed.

Lemma iter_tasks_page_error_witness :
  iter_tasks 2 failing_page_remote "l1" empty_state
  = (Raise (RequestException "500 Server Error"),
     with_clock 600 empty_state,
     [EApiGet (GetTaskPage "l1" 0); ESleep; EApiGet (GetTaskPage "l1" 1)]).
Proof.
  destruct (iter_tasks_page_error failing_page_remote "l1" "500 Server Error"
              1 2 empty_state) as (H & _).
  - intros i Hi. destruct i as [|i]; [reflexivity|lia].
  - reflexivity.
  - lia.
  - exact H.
Defined.

(** ** Spaces and lists *)

Lemma dict_set_map k v d :
  (list_to_map (dict_set k v d) : gmap string string)
  = <[ k := v ]> (list_to_map d).
Proof.
  induction d as [|[k' v'] d IH]; simpl; [reflexivity|].
  destruct (String.eqb k' k) eqn:Heq.
  - apply String.eqb_eq in Heq. subst k'. simpl.
    rewrite insert_insert_eq. reflexivity.
  - apply String.eqb_neq in Heq. simpl. rewrite IH.
    apply insert_insert_ne. congruence.
Qed.

Lemma dict_set_NoDup k v d : NoDup d.*1 -> NoDup (dict_set k v d).*1.
Proof.
  induction d as [|[k' v'] d IH]; simpl; intros Hd.
  - apply NoDup_singleton.
  - apply NoDup_cons in Hd as [Hk' Hd].
    destruct (String.eqb k' k) eqn:Heq; simpl.
    + apply String.eqb_eq in Heq. subst k'. apply NoDup_cons. auto.
    + apply String.eqb_neq in Heq. apply NoDup_cons. split; [|auto].
      apply (not_elem_of_list_to_map_2 (M := gmap string)).
      rewrite dict_set_map, lookup_insert_ne by congruence.
      apply not_elem_of_list_to_map_1. exact Hk'.
Qed.

Lemma dict_fold_spec data : forall d,
  NoDup d.*1 ->
  NoDup (fold_left (fun d s => dict_set s.1 s.2 d) data d).*1
  /\ (list_to_map (fold_left (fun d s => dict_set s.1 s.2 d) data d)
      : gmap string string)
     = fold_left (fun m s => <[ s.1 := s.2 ]> m) data (list_to_map d).
Proof.
  induction data as [|[k v] data IH]; intros d Hd; simpl; [auto|].
  destruct (IH (dict_set k v d) (dict_set_NoDup k v d Hd)) as [H1 H2].
  split; [exact H1|]. rewrite H2, dict_set_map. reflexivity.
Qed.

Lemma last_binding_spec (data : list (string * string)) :
  forall (m : gmap string string) k v,
    fold_left (fun m s => <[ s.1 := s.2 ]> m) data m !! k = Some v <->
    (exists before after,
       data = before ++ (k, v) :: after /\ k ∉ after.*1)
    \/ (m !! k = Some v /\ k ∉ data.*1).
Proof.
  induction data as [|[k0 v0] data IH]; intros m k v; simpl.
  - split.
    + intros H. right. split; [exact H | apply not_elem_of_nil].
    + intros [(before & after & H & _)|[H _]]; [|exact H].
      destruct before; discriminate.
  - rewrite IH. split.
    + intros [(before & after & Hd & Hk)|[Hm Hk]].
      * left. exists ((k0, v0) :: before), after. subst data. auto.
      * destruct (decide (k0 = k)) as [->|Hne].
        -- rewrite lookup_insert_eq in Hm. inversion Hm; subst v0.
           left. exists [], data. auto.
        -- rewrite lookup_insert_ne in Hm by exact Hne.
           right. split; [exact Hm|]. apply not_elem_of_cons. auto.
    + intros [(before & after & Hd & Hk)|[Hm Hk]].
      * destruct before as [|x before]; simpl in Hd; inversion Hd; subst.
        -- right. split; [apply lookup_insert_eq | exact Hk].
        -- left. exists before, after. auto.
      * apply not_elem_of_cons in Hk as [Hne Hk].
        right. split; [|exact Hk]. rewrite lookup_insert_ne by congruence.
        exact Hm.
Qed.

(** X8. [get_spaces] makes one request.  A failed request raises its error
    and an answer without the key ["spaces"] raises [KeyError]; otherwise
    the dictionary returned has each space identifier once, and maps it to
    the name given by the last entry of the answer that carries this
    identifier. *)
Theorem get_spaces_last_name_wins (r : remote) (st : state) :
  match api_spaces r with
  | inl err =>
      get_spaces r st
      = (Raise (RequestException err), st, [EApiGet GetSpaces])
  | inr None =>
      get_spaces r st = (Raise (KeyError "spaces"), st, [EApiGet GetSpaces])
  | inr (Some data) =>
      exists spaces,
        get_spaces r st = (Ret spaces, st, [EApiGet GetSpaces])
        /\ NoDup spaces.*1
        /\ (forall sid sname,
              (sid, sname) ∈ spaces <->
              exists before after,
                data = before ++ (sid, sname) :: after /\ sid ∉ after.*1)
  end.
Proof.
  unfold get_spaces, api_get.
  destruct (api_spaces r) as [err|[data|]]; [reflexivity| |reflexivity].
  eexists. split; [reflexivity|].
  destruct (dict_fold_spec data [] (NoDup_nil_2 (A:=string))) as [Hnd Hmap].
  split; [exact Hnd|]. intros sid sname.
  rewrite (elem_of_list_to_map (M := gmap string) _ _ _ Hnd), Hmap.
  rewrite last_binding_spec. simpl. split.
  - intros [H|[H _]]; [exact H|]. rewrite lookup_empty in H. discriminate.
  - intros H. left. exact H.
Qed.

(** X9. [get_folder_lists] asks for the folder-less lists and then for the
    folders.  If the first request fails the second is not made; if either
    fails the error is raised and no list is returned.  Otherwise the result
    is the folder-less lists followed by the lists of each folder, folder
    after folder and each in the order of its folder, nothing dropped and
    nothing merged; a missing ["lists"] or ["folders"] key counts as
    empty. *)
Theorem get_folder_lists_flattens (r : remote) (space_id : string)
  (st : state) :
  match api_lists r space_id with
  | inl err =>
      get_folder_lists r space_id st
      = (Raise (RequestException err), st, [EApiGet (GetLists space_id)])
  | inr bare =>
      match api_folders r space_id with
      | inl err =>
          get_folder_lists r space_id st
          = (Raise (RequestException err), st,
             [EApiGet (GetLists space_id); EApiGet (GetFolders space_id)])
      | inr folders =>
          exists lists,
            get_folder_lists r space_id st
            = (Ret lists, st,
               [EApiGet (GetLists space_id); EApiGet (GetFolders space_id)])
            /\ lists = default [] bare ++ lists_in_folders (default [] folders)
            /\ length lists
               = (length (default [] bare)
                  + list_sum (map (fun f => length (default [] f))
                                  (default [] folders)))%nat
            /\ (exists nested, lists = default [] bare ++ nested
                 /\ forall l, l ∈ nested <->
                      exists ls, Some ls ∈ default [] folders /\ l ∈ ls)
            /\ (bare = None -> folders = None -> lists = [])
      end
  end.
Proof.
  unfold get_folder_lists, api_get.
  destruct (api_lists r space_id) as [err|bare]; [reflexivity|].
  destruct (api_folders r space_id) as [err|folders]; [reflexivity|].
  assert (Hflat : forall fs : list (option (list lst)),
             concat (map (default []) fs) = lists_in_folders fs).
  { induction fs as [|[ls|] fs IH]; simpl; [reflexivity| |exact IH].
    rewrite IH. reflexivity. }
  eexists. split; [reflexivity|]. split; [|split; [|split]].
  - rewrite Hflat. reflexivity.
  - rewrite length_app. f_equal.
    generalize (default [] folders). clear. intros fs.
    induction fs as [|f fs IH]; simpl; [reflexivity|].
    rewrite length_app, IH. reflexivity.
  - eexists. split; [reflexivity|]. intros l.
    generalize (default [] folders). clear. intros fs.
    induction fs as [|f fs IH]; simpl.
    + split; [intros H; inversion H|]. intros (ls & H & _). inversion H.
    + rewrite elem_of_app, IH. split.
      * intros [H|(ls & Hin & Hl)].
        -- destruct f as [ls|]; simpl in H; [|inversion H].
           exists ls. split; [left|exact H].
        -- exists ls. split; [right; exact Hin|exact Hl].
      * intros (ls & Hin & Hl). apply elem_of_cons in Hin as [Heq|Hin].
        -- left. subst f. exact Hl.
        -- right. exists ls. auto.
  - intros -> ->. reflexivity.
Qed.
